(** * rib_scraper: a shallow embedding of the match parser and of the series driver

    The development follows [src/rib_scraper.py].  The payload is the JSON
    document embedded in the page of a match, modelled as a tree of
    [value]s; Python exceptions are the [Raise] results of an error monad;
    the dictionaries the parser updates in place (the records of
    [matchDetails.economies] and the round entries of the located match)
    are threaded explicitly: every function that mutates part of
    [self.form] returns the new form next to its result.

    Scope of the model.  JSON numbers are integers (ids, scores, round
    numbers); numbers with a fractional part are not modelled.  Where the
    code iterates over or slices a payload field, the model expects a JSON
    array and raises [TypeError] on anything else (Python also accepts a
    string or an object there, and fails later or not at all when it is
    empty).  The page is taken with its script element already decoded, so
    the errors of [json.loads] are not modelled, and neither are [print],
    the browser session of [get_series] and the extraction of the links
    from the listing: [process_series] starts from the list of [href]s.
    [get_series] reads [self.numSeries], which [__init__] stores as
    [numMatches]; the model keeps the attributes that the constructor of
    the driver assigns and the test of the loop ([driver_init],
    [series_loop_test]), and the calls of [process_series] that the loop
    body makes, in [process_all]. *)

From Stdlib Require Import ZArith String Ascii List Lia Bool Sorted.
From stdpp Require Import base tactics list.
Set Warnings "-register-all".
Import ListNotations.
Local Open Scope string_scope.
Local Open Scope list_scope.

(** ** Exceptions and the error monad *)

Inductive exn :=
| KeyError
| IndexError
| TypeError
| ValueError
| AttributeError.

Inductive result (A : Type) :=
| Ok (a : A)
| Raise (e : exn).
Arguments Ok {A} a.
Arguments Raise {A} e.

Definition bind {A B} (m : result A) (k : A -> result B) : result B :=
  match m with
  | Ok a => k a
  | Raise e => Raise e
  end.

Notation "'let*' x ':=' m 'in' k" := (bind m (fun x => k))
  (at level 10, x pattern, m at level 100, k at level 200).

Definition of_option {A} (o : option A) (e : exn) : result A :=
  match o with
  | Some a => Ok a
  | None => Raise e
  end.

(** [for x in l: acc = f(acc, x)] with exceptions. *)
Fixpoint foldM {A S} (f : S -> A -> result S) (l : list A) (s : S) : result S :=
  match l with
  | [] => Ok s
  | x :: l' => let* s' := f s x in foldM f l' s'
  end.

Fixpoint mapM {A B} (f : A -> result B) (l : list A) : result (list B) :=
  match l with
  | [] => Ok []
  | x :: l' => let* y := f x in let* ys := mapM f l' in Ok (y :: ys)
  end.

Fixpoint filterM {A} (f : A -> result bool) (l : list A) : result (list A) :=
  match l with
  | [] => Ok []
  | x :: l' =>
      let* b := f x in let* ys := filterM f l' in Ok (if b then x :: ys else ys)
  end.

(** ** JSON values and Python dictionaries *)

Inductive value :=
| VNone
| VBool (b : bool)
| VInt (n : Z)
| VStr (s : string)
| VList (l : list value)
| VDict (d : list (string * value)).

(** A [dict] keeps its items in insertion order; its keys are unique. *)
Definition dict := list (string * value).

Fixpoint dget (k : string) (d : dict) : option value :=
  match d with
  | [] => None
  | (k', v) :: d' => if String.eqb k k' then Some v else dget k d'
  end.

(** [d[k] = v]: an existing key keeps its position. *)
Fixpoint dset (k : string) (v : value) (d : dict) : dict :=
  match d with
  | [] => [(k, v)]
  | (k', v') :: d' =>
      if String.eqb k k' then (k', v) :: d' else (k', v') :: dset k v d'
  end.

Fixpoint dremove (k : string) (d : dict) : dict :=
  match d with
  | [] => []
  | (k', v') :: d' =>
      if String.eqb k k' then d' else (k', v') :: dremove k d'
  end.

(** [del d[k]] *)
Definition ddel (k : string) (d : dict) : result dict :=
  match dget k d with
  | Some _ => Ok (dremove k d)
  | None => Raise KeyError
  end.

(** [d.update(other)] *)
Definition dupdate (d other : dict) : dict :=
  fold_left (fun acc kv => dset (fst kv) (snd kv) acc) other d.

Definition dkeys (d : dict) : list value := map (fun kv => VStr (fst kv)) d.
Definition dvalues (d : dict) : list value := map snd d.

(** Truth value of an object in a condition. *)
Definition truthy (v : value) : bool :=
  match v with
  | VNone => false
  | VBool b => b
  | VInt n => negb (n =? 0)%Z
  | VStr s => negb (String.eqb s "")
  | VList l => match l with [] => false | _ => true end
  | VDict d => match d with [] => false | _ => true end
  end.

(** [a == b].  [True == 1] and [False == 0] hold in Python; two dicts are
    equal when they have as many items and every item of the first is in
    the second with an equal value. *)
Fixpoint py_eq (a b : value) {struct a} : bool :=
  match a, b with
  | VNone, VNone => true
  | VBool x, VBool y => Bool.eqb x y
  | VBool x, VInt y => (Z.b2z x =? y)%Z
  | VInt x, VBool y => (x =? Z.b2z y)%Z
  | VInt x, VInt y => (x =? y)%Z
  | VStr x, VStr y => String.eqb x y
  | VList x, VList y =>
      (fix go (x y : list value) {struct x} : bool :=
         match x, y with
         | [], [] => true
         | a' :: x', b' :: y' => py_eq a' b' && go x' y'
         | _, _ => false
         end) x y
  | VDict x, VDict y =>
      Nat.eqb (List.length x) (List.length y) &&
      (fix go (x : list (string * value)) {struct x} : bool :=
         match x with
         | [] => true
         | (k, v) :: x' =>
             match dget k y with
             | Some w => py_eq v w
             | None => false
             end && go x'
         end) x
  | _, _ => false
  end.

(** Subscription [x[k]] with a string key: a dict is required. *)
Definition as_dict (x : value) : result dict :=
  match x with
  | VDict d => Ok d
  | _ => Raise TypeError
  end.

Definition as_list (x : value) : result (list value) :=
  match x with
  | VList l => Ok l
  | _ => Raise TypeError
  end.

Definition dget' (k : string) (d : dict) : result value :=
  of_option (dget k d) KeyError.

Definition vget (k : string) (x : value) : result value :=
  let* d := as_dict x in dget' k d.

(** [l[i]] for an index that is a natural number. *)
Definition list_get {A} (l : list A) (i : nat) : result A :=
  of_option (l !! i) IndexError.

(** ** Lookup tables: dictionaries keyed by ids *)

Definition table := list (value * value).

Definition hashable (v : value) : bool :=
  match v with
  | VList _ | VDict _ => false
  | _ => true
  end.

Fixpoint tfind (k : value) (t : table) : option value :=
  match t with
  | [] => None
  | (k', v) :: t' => if py_eq k' k then Some v else tfind k t'
  end.

Fixpoint tinsert (k v : value) (t : table) : table :=
  match t with
  | [] => [(k, v)]
  | (k', v') :: t' =>
      if py_eq k' k then (k', v) :: t' else (k', v') :: tinsert k v t'
  end.

(** [t[k]] *)
Definition table_get (t : table) (k : value) : result value :=
  if hashable k then of_option (tfind k t) KeyError else Raise TypeError.

(** [t[k] = v] *)
Definition table_set (t : table) (k v : value) : result table :=
  if hashable k then Ok (tinsert k v t) else Raise TypeError.

(** ** jsonParser *)

(** The attributes [__init__] assigns. *)
Record jsonParser := {
  form : value;
  match_id : value;
  addHeader : bool
}.

(** [for num, match in enumerate(matches): if match['id'] == match_id:
    index = num; break].  [None] is the initial [index = None]. *)
Fixpoint find_match (mid : value) (matches : list value) (num : nat)
  : result (option nat) :=
  match matches with
  | [] => Ok None
  | m :: ms =>
      let* i := vget "id" m in
      if py_eq i mid then Ok (Some num) else find_match mid ms (S num)
  end.

(** [matches[index]]: a list is not subscripted by [None]. *)
Definition at_index (matches : list value) (index : option nat) : result value :=
  match index with
  | None => Raise TypeError
  | Some n => list_get matches n
  end.

Definition series_matches (fm : value) : result (list value) :=
  let* series := vget "series" fm in
  let* ms := vget "matches" series in
  as_list ms.

Definition located_match (fm mid : value) : result value :=
  let* ms := series_matches fm in
  let* index := find_match mid ms 0 in
  at_index ms index.

(** [d[e[idk]] = e[valk]] for every [e] of the list: the right-hand side is
    evaluated before the key. *)
Definition build_table (idk valk : string) (entries : list value) : result table :=
  foldM (fun t e =>
           let* v := vget valk e in
           let* k := vget idk e in
           table_set t k v) entries [].

Definition get_ign_dict (fm mid : value) : result table :=
  let* ms := series_matches fm in
  let* index := find_match mid ms 0 in
  let* m := at_index ms index in
  let* ps := vget "players" m in
  let* players := as_list ps in
  foldM (fun t player =>
           let* p := vget "player" player in
           let* ign := vget "ign" p in
           let* id := vget "id" p in
           table_set t id ign) players [].

Definition content_table (fm : value) (section : string) : result table :=
  let* content := vget "content" fm in
  let* l := vget section content in
  let* entries := as_list l in
  build_table "id" "name" entries.

Definition get_weapon_dict (fm : value) : result table := content_table fm "weapons".
Definition get_agent_dict (fm : value) : result table := content_table fm "agents".
Definition get_region_dict (fm : value) : result table := content_table fm "regions".

(** *** player_stats_data *)

(** [range(0, n, step)] for a positive step. *)
Definition range_step (n step : nat) : list nat :=
  map (fun r => r * step) (seq 0 ((n + step - 1) / step)).

(** The economy records are dictionaries shared with [self.form]: the list
    [economies] is the store, and a window holds references (positions in the
    store), as the slice [economy[i:i+numPlayers]] holds the same objects. *)
Definition slice_refs (len i n : nat) : list nat := seq i (Nat.min n (len - i)).

(** The condition of line 297, for the stat record [sd] and the object [e]. *)
Definition keys_match (sd : dict) (e : value) : result bool :=
  let* sp := dget' "playerId" sd in
  let* ep := vget "playerId" e in
  if py_eq sp ep then
    let* sr := dget' "roundNumber" sd in
    let* er := vget "roundNumber" e in
    Ok (py_eq sr er)
  else Ok false.

(** [for player in econWindow: if <condition>: ... break]: the reference of
    the first record that satisfies the condition.  [playerStats[j]] is
    evaluated in every iteration, hence not at all for an empty window. *)
Fixpoint scan (store : list value) (sj : result dict) (win : list nat)
  : result (option nat) :=
  match win with
  | [] => Ok None
  | a :: win' =>
      let* sd := sj in
      let* e := list_get store a in
      let* m := keys_match sd e in
      if m then Ok (Some a) else scan store sj win'
  end.

(** [econWindow.index(player)]: the first position holding the object
    [player] itself or an object equal to it. *)
Fixpoint py_index (store : list value) (win : list nat) (a : nat) (pos : nat)
  : result nat :=
  match win with
  | [] => Raise ValueError
  | b :: win' =>
      if Nat.eqb b a then Ok pos
      else
        let* x := list_get store b in
        let* y := list_get store a in
        if py_eq x y then Ok pos else py_index store win' a (S pos)
  end.

(** Lines 299 to 311: the merge, the names, the deletions. *)
Definition resolve (ignDict agentDict weaponDict : table) (sd playerEcon : dict)
  : result dict :=
  let m0 := dupdate playerEcon sd in
  let* pid := dget' "playerId" m0 in
  let* ign := table_get ignDict pid in
  let m1 := dset "playerIgn" ign m0 in
  let* aid := dget' "agentId" m1 in
  let* ag := table_get agentDict aid in
  let m2 := dset "agent" ag m1 in
  let* wid := dget' "weaponId" m2 in
  let* m3 := (if truthy wid
              then let* wn := table_get weaponDict wid in
                   Ok (dset "weaponName" wn m2)
              else Ok m2) in
  let* m4 := ddel "playerId" m3 in
  let* m5 := ddel "agentId" m4 in
  ddel "weaponId" m5.

(** Which list a resolved record goes to (line 313). *)
Definition is_team1 (r : dict) : result bool :=
  let* tn := dget' "teamNumber" r in Ok (py_eq tn (VInt 1)).

(** State of the loop over [j]: the store, the window, the two round lists. *)
Record round_state := {
  rs_store : list value;
  rs_window : list nat;
  rs_team1 : list dict;
  rs_team2 : list dict
}.

(** One iteration of [for j in range(i, i+numPlayers)]. *)
Definition join_one (ignDict agentDict weaponDict : table)
    (playerStats : list dict) (st : round_state) (j : nat) : result round_state :=
  let* hit := scan (rs_store st) (list_get playerStats j) (rs_window st) in
  match hit with
  | None => Ok st
  | Some player =>
      let* k := py_index (rs_store st) (rs_window st) player 0 in
      let* ref := list_get (rs_window st) k in
      let* e := list_get (rs_store st) ref in
      let* playerEcon := as_dict e in
      let* sd := list_get playerStats j in
      let* r := resolve ignDict agentDict weaponDict sd playerEcon in
      let* t1 := is_team1 r in
      Ok {| rs_store := <[ref := VDict r]> (rs_store st);
            rs_window := delete k (rs_window st);
            rs_team1 := if t1 then rs_team1 st ++ [r] else rs_team1 st;
            rs_team2 := if t1 then rs_team2 st else rs_team2 st ++ [r] |}
  end.

(** State of the loop over [i]. *)
Record stats_state := {
  ss_store : list value;
  ss_team1 : list (list dict);
  ss_team2 : list (list dict)
}.

(** One iteration of [for i in range(0, len(playerStats), numPlayers)]. *)
Definition join_round (ignDict agentDict weaponDict : table)
    (playerStats : list dict) (numPlayers : nat) (st : stats_state) (i : nat)
  : result stats_state :=
  let econWindow := slice_refs (length (ss_store st)) i numPlayers in
  let* r := foldM (join_one ignDict agentDict weaponDict playerStats)
              (seq i numPlayers)
              {| rs_store := ss_store st; rs_window := econWindow;
                 rs_team1 := []; rs_team2 := [] |} in
  Ok {| ss_store := rs_store r;
        ss_team1 := ss_team1 st ++ [rs_team1 r];
        ss_team2 := ss_team2 st ++ [rs_team2 r] |}.

(** In-place update of an object reached through [self.form]. *)
Definition vset (k : string) (v : value) (x : value) : value :=
  match x with
  | VDict d => VDict (dset k v d)
  | _ => x
  end.

Definition stat_of_match (mid : value) (x : value) : result bool :=
  let* m := vget "matchId" x in Ok (py_eq m mid).

(** Lines 276 and 277: the stat records of the match. *)
Definition match_stats (fm mid : value) : result (list dict) :=
  let* series := vget "series" fm in
  let* ps := vget "playerStats" series in
  let* all_stats := as_list ps in
  let* filtered := filterM (stat_of_match mid) all_stats in
  mapM as_dict filtered.

(** [player_stats_data]: the two lists of per-round lists, and the form after
    the economy records have been updated in place. *)
Definition player_stats_data (fm mid : value)
  : result (list (list dict) * list (list dict) * value) :=
  let* playerStats := match_stats fm mid in
  let* details := vget "matchDetails" fm in
  let* economy := vget "economies" details in
  let* ignDict := get_ign_dict fm mid in
  let numPlayers := Nat.max (length ignDict) 1 in
  let* agentDict := get_agent_dict fm in
  let* weaponDict := get_weapon_dict fm in
  match range_step (length playerStats) numPlayers with
  | [] => Ok ([], [], fm)
  | starts =>
      let* store := as_list economy in
      let* st := foldM (join_round ignDict agentDict weaponDict playerStats numPlayers)
                   starts
                   {| ss_store := store; ss_team1 := []; ss_team2 := [] |} in
      Ok (ss_team1 st, ss_team2 st,
          vset "matchDetails" (vset "economies" (VList (ss_store st)) details) fm)
  end.

(** *** get_rounds *)

(** [round[k] = l if l else None] *)
Definition players_or_none (l : list dict) : value :=
  if truthy (VList (map VDict l)) then VList (map VDict l) else VNone.

(** One iteration of [for num, round in enumerate(rounds)]. *)
Definition attach_players (team1Players team2Players : list (list dict))
    (num : nat) (round : value) : result dict :=
  let* t1 := list_get team1Players num in
  let* r := as_dict round in
  let r1 := dset "team1Players" (players_or_none t1) r in
  let* t2 := list_get team2Players num in
  Ok (dset "team2Players" (players_or_none t2) r1).

Fixpoint attach_all (team1Players team2Players : list (list dict))
    (num : nat) (rounds : list value) : result (list dict) :=
  match rounds with
  | [] => Ok []
  | round :: rest =>
      let* r := attach_players team1Players team2Players num round in
      let* rs := attach_all team1Players team2Players (S num) rest in
      Ok (r :: rs)
  end.

(** [get_rounds]: the round records, and the form after the call (the
    returned list is the list held by the located match). *)
Definition get_rounds (fm mid : value) : result (list dict * value) :=
  let* ms := series_matches fm in
  let* index := find_match mid ms 0 in
  let* m := at_index ms index in
  let* rv := vget "rounds" m in
  let* (team1Players, team2Players, fm1) := player_stats_data fm mid in
  let* rounds := as_list rv in
  let* rounds' := attach_all team1Players team2Players 0 rounds in
  let m' := vset "rounds" (VList (map VDict rounds')) m in
  let ms' := match index with
             | Some n => <[n := m']> ms
             | None => ms
             end in
  let* series1 := vget "series" fm1 in
  Ok (rounds', vset "series" (vset "matches" (VList ms') series1) fm1).

(** *** get_match_info *)

Definition get_match_info (fm mid : value) : result dict :=
  let* ms := series_matches fm in
  let* index := find_match mid ms 0 in
  let* regionDict := get_region_dict fm in
  let* series := vget "series" fm in
  let* parentEvent := vget "parentEventName" series in
  let* eventName := vget "eventName" series in
  let* eventTime := vget "startDate" series in
  let* regionId := vget "eventRegionId" series in
  let* eventRegion := table_get regionDict regionId in
  let* bestOf := vget "bestOf" series in
  let* stage := vget "stage" series in
  let* bracket := vget "bracket" series in
  let* t1 := vget "team1" series in
  let* team1 := vget "name" t1 in
  let* t2 := vget "team2" series in
  let* team2 := vget "name" t2 in
  let* team1SeriesScore := vget "team1Score" series in
  let* team2SeriesScore := vget "team2Score" series in
  let* m := at_index ms index in
  let* map := vget "map" m in
  let* mapName := vget "name" map in
  let* gameStartTime := vget "startDate" m in
  let* seriesMatchNumber := vget "seriesMatchNumber" m in
  let* patchId := vget "patchId" m in
  let* seriesWinningTeamNumber := vget "winningTeamNumber" m in
  let* team1MatchScore := vget "team1Score" m in
  let* team2MatchScore := vget "team2Score" m in
  let* seriesWinCondition := vget "winCondition" m in
  Ok [ ("parentEvent", parentEvent);
       ("eventName", eventName);
       ("eventTime", eventTime);
       ("eventRegion", eventRegion);
       ("bestOf", bestOf);
       ("stage", stage);
       ("bracket", bracket);
       ("team1", team1);
       ("team2", team2);
       ("team1SeriesScore", team1SeriesScore);
       ("team2SeriesScore", team2SeriesScore);
       ("matchId", mid);
       ("mapName", mapName);
       ("gameStartTime", gameStartTime);
       ("seriesMatchNumber", seriesMatchNumber);
       ("patchId", patchId);
       ("seriesWinningTeamNumber", seriesWinningTeamNumber);
       ("team1MatchScore", team1MatchScore);
       ("team2MatchScore", team2MatchScore);
       ("seriesWinCondition", seriesWinCondition) ].

(** *** csv_rows *)

Definition row := list value.

(** [self.form.get('statusCode')] *)
Definition status_code_of (fm : value) : result value :=
  match fm with
  | VDict d => Ok (default VNone (dget "statusCode" d))
  | _ => Raise AttributeError
  end.

(** The test of line 398. *)
Definition tossed (fm : value) : result bool :=
  if negb (truthy fm) then Ok true
  else let* sc := status_code_of fm in Ok (py_eq sc (VInt 500)).

Definition header_row (matchData : dict) (rounds : list dict) : result row :=
  let* r0 := list_get rounds 0 in
  Ok (dkeys matchData ++ dkeys r0).

(** The rows of a match whose form was not tossed. *)
Definition match_rows (hdr : bool) (matchData : dict) (rounds : list dict)
  : result (list row) :=
  match rounds with
  | [] => Ok [dvalues matchData]
  | _ =>
      let* output := (if hdr
                      then let* h := header_row matchData rounds in Ok [h]
                      else Ok []) in
      Ok (output ++ map (fun round => dvalues matchData ++ dvalues round) rounds)
  end.

(** [csv_rows]: the rows, and the form after the call. *)
Definition csv_rows (p : jsonParser) : result (list row * value) :=
  let* t := tossed (form p) in
  if t then Ok ([], form p)
  else
    let* matchData := get_match_info (form p) (match_id p) in
    let* (rounds, fm') := get_rounds (form p) (match_id p) in
    let* rows := match_rows (addHeader p) matchData rounds in
    Ok (rows, fm').

(** ** The request and [jsonParser.__init__] *)

(** What the code reads of a response: its status code and the JSON text of
    the script element [__NEXT_DATA__] of the page, already decoded, when
    the page has such an element. *)
Record response := {
  status_code : Z;
  next_data : option value
}.

(** Truth value of a response ([Response.ok]): no client or server error. *)
Definition response_ok (r : response) : bool :=
  negb ((400 <=? status_code r)%Z && (status_code r <? 600)%Z).

(** One call of [requests.get]. *)
Inductive attempt :=
| Timeout
| Responded (r : response).

(** [while (not response and count < 11)]: [get n] is the outcome of the
    request made when [count] is [n]; [fuel] is the number of requests that
    may still be made. *)
Fixpoint request_loop (get : nat -> attempt) (fuel count : nat)
    (resp : option response) : option response :=
  match fuel with
  | 0 => resp
  | S fuel' =>
      if match resp with Some r => response_ok r | None => false end
      then resp
      else
        match get (S count) with
        | Timeout => request_loop get fuel' (S count) resp
        | Responded r => request_loop get fuel' (S count) (Some r)
        end
  end.

(** [__init__]: [None] when the constructor returns before it assigns the
    attributes. *)
Definition init (get : nat -> attempt) (hdr : bool) : result (option jsonParser) :=
  match request_loop get 11 0 None with
  | None => Raise AttributeError
  | Some r =>
      if (status_code r =? 500)%Z then Ok None
      else
        match next_data r with
        | None => Ok None
        | Some data =>
            let* props := vget "props" data in
            let* fm := vget "pageProps" props in
            let* mid := vget "matchId" fm in
            Ok (Some {| form := fm; match_id := mid; addHeader := hdr |})
        end
  end.

(** [parser.csv_rows()] on the object the constructor left: reading
    [self.form] of an object without this attribute raises. *)
Definition parser_rows (p : option jsonParser) : result (list row) :=
  match p with
  | None => Raise AttributeError
  | Some p => let* (rows, _) := csv_rows p in Ok rows
  end.

(** ** resultsDriver *)

(** [x[x.rfind('=')+1:]]: what follows the last ['='], the whole string when
    there is none. *)
Fixpoint after_last_eq (s : string) : option string :=
  match s with
  | EmptyString => None
  | String c s' =>
      match after_last_eq s' with
      | Some t => Some t
      | None => if Ascii.eqb c "="%char then Some s' else None
      end
  end.

Definition sort_key (x : string) : string := default x (after_last_eq x).

(** [list.sort(key=...)] is stable and compares the keys, which are strings,
    character by character. *)
Fixpoint insert_link (x : string) (l : list string) : list string :=
  match l with
  | [] => [x]
  | y :: l' =>
      if String.leb (sort_key x) (sort_key y) then x :: y :: l'
      else y :: insert_link x l'
  end.

Definition sort_links (l : list string) : list string :=
  fold_right insert_link [] l.

(** The driver: the flag [fileExists] and the rows appended to the file. *)
Record resultsDriver := {
  fileExists : bool;
  file : list row
}.

Section Driver.

(** [web link n]: the outcome of the [n]-th request for [link]. *)
Variable web : string -> nat -> attempt.

(** One iteration of [for tail in map_links]; the state is the flag and the
    list [matches]. *)
Definition process_link (st : bool * list (list row)) (tail : string)
  : result (bool * list (list row)) :=
  let link := ("https://www.rib.gg" ++ tail)%string in
  let* parser := init (web link) (negb (fst st)) in
  let* rows := parser_rows parser in
  Ok (true, snd st ++ [rows]).

(** [process_series], from the links found in the series row. *)
Definition process_series (d : resultsDriver) (map_links : list string)
  : result resultsDriver :=
  let* (exists_, matches) :=
    foldM process_link (sort_links map_links) (fileExists d, []) in
  Ok {| fileExists := exists_; file := file d ++ concat matches |}.

(** The calls of [process_series] that one driver makes, series after
    series. *)
Definition process_all (d : resultsDriver) (series : list (list string))
  : result resultsDriver :=
  foldM process_series series d.

End Driver.

(** [resultsDriver.__init__] *)

(** [s[-4:]]: the last four characters, the whole string when it has
    fewer. *)
Fixpoint drop_string (n : nat) (s : string) : string :=
  match n, s with
  | S n', String _ s' => drop_string n' s'
  | _, _ => s
  end.

Definition tail4 (s : string) : string := drop_string (String.length s - 4) s.

(** Lines 53 to 55: the name of the file written to. *)
Definition csv_name (fileName : string) : string :=
  if String.eqb (tail4 fileName) ".csv" then fileName
  else (fileName ++ ".csv")%string.

(** The attributes of the object after the constructor, in the order of the
    assignments; [isfile] is [os.path.isfile]. *)
Definition driver_init (isfile : string -> bool) (fileName : string)
    (numSeries : value) : dict :=
  [("fileName", VStr (csv_name fileName));
   ("numMatches", numSeries);
   ("fileExists", VBool (isfile fileName))].

(** [self.name] *)
Definition getattr (self : dict) (name : string) : result value :=
  of_option (dget name self) AttributeError.

(** [c <= x] for an int [c]. *)
Definition int_le (c : Z) (x : value) : result bool :=
  match x with
  | VInt n => Ok (c <=? n)%Z
  | VBool b => Ok (c <=? Z.b2z b)%Z
  | _ => Raise TypeError
  end.

(** The test of the loop of [get_series] (line 100):
    [countSeries <= self.numSeries]. *)
Definition series_loop_test (self : dict) (countSeries : Z) : result bool :=
  let* n := getattr self "numSeries" in
  int_le countSeries n.

(** ** Notions used by the statements *)

(** A value is a JSON document when the keys of each of its objects are
    distinct, as [json.loads] builds them. *)
Fixpoint nodup_keys (d : dict) : bool :=
  match d with
  | [] => true
  | (k, _) :: d' =>
      match dget k d' with
      | Some _ => false
      | None => nodup_keys d'
      end
  end.

Fixpoint wf_value (v : value) : bool :=
  match v with
  | VList l => forallb wf_value l
  | VDict d =>
      nodup_keys d &&
      (fix go (d : list (string * value)) : bool :=
         match d with
         | [] => true
         | (_, w) :: d' => wf_value w && go d'
         end) d
  | _ => true
  end.

(** The number a string of decimal digits denotes. *)
Definition digit (c : ascii) : option N :=
  let n := N_of_ascii c in
  if ((48 <=? n) && (n <=? 57))%N then Some (n - 48)%N else None.

Fixpoint numeral (s : string) : option N :=
  match s with
  | EmptyString => Some 0%N
  | String c s' =>
      match digit c, numeral s' with
      | Some d, Some v => Some (d * 10 ^ N.of_nat (String.length s') + v)%N
      | _, _ => None
      end
  end.

(** The numeric value of the trailing parameter of a link, when it is a
    numeral. *)
Definition key_number (x : string) : option N :=
  match sort_key x with
  | EmptyString => None
  | k => numeral k
  end.

(** The order of the sort: the keys are compared as strings. *)
Definition key_le (a b : string) : Prop :=
  String.leb (sort_key a) (sort_key b) = true.

Definition key_lt (a b : string) : Prop :=
  String.ltb (sort_key a) (sort_key b) = true.

(** Both trailing values are numerals with as many digits, the first one
    denoting the smaller number. *)
Definition same_width_lt (a b : string) : Prop :=
  exists m n : N,
    key_number a = Some m /\ key_number b = Some n /\
    String.length (sort_key a) = String.length (sort_key b) /\ (m < n)%N.

(** The rows of the rounds themselves, without a header row. *)
Definition data_rows (matchData : dict) (rounds : list dict) : list row :=
  map (fun round => dvalues matchData ++ dvalues round) rounds.

(** What one link contributes: the rows of the parser built for it. *)
Definition match_rows_of (web : string -> nat -> attempt) (hdr : bool)
    (tail : string) : result (list row) :=
  let* parser := init (web ("https://www.rib.gg" ++ tail)%string) hdr in
  parser_rows parser.

(** How [csv_rows] ended: the match was tossed, or it was parsed into its
    metadata and its round records. *)
Inductive match_outcome :=
| Skipped
| Parsed (matchData : dict) (rounds : list dict).

Definition rows_of_outcome (hdr : bool) (o : match_outcome) : list row :=
  match o with
  | Skipped => []
  | Parsed matchData [] => [dvalues matchData]
  | Parsed matchData (r0 :: rest) =>
      (if hdr then [dkeys matchData ++ dkeys r0] else [])
        ++ data_rows matchData (r0 :: rest)
  end.



(** The value of a key after [playerEcon.update(stat)]: the stat record's
    when it has the key, the economy record's otherwise. *)
Definition merged_get (sd playerEcon : dict) (k : string) : option value :=
  match dget k sd with
  | Some v => Some v
  | None => dget k playerEcon
  end.

(** The keys that the resolution of a record removes or sets. *)
Definition resolved_keys : list string :=
  ["playerId"; "agentId"; "weaponId"; "playerIgn"; "agent"; "weaponName"].









(** What [round[k]] holds for the resolved list [l]. *)
Definition players_value (l : list dict) : value :=
  match l with
  | [] => VNone
  | _ => VList (map VDict l)
  end.

(** The outcome of the parse of a parser, and of the parser built for a
    link. *)
Definition parse_outcome (p : jsonParser) (o : match_outcome) : Prop :=
  match o with
  | Skipped => tossed (form p) = Ok true
  | Parsed matchData rounds =>
      tossed (form p) = Ok false /\
      get_match_info (form p) (match_id p) = Ok matchData /\
      exists fm', get_rounds (form p) (match_id p) = Ok (rounds, fm')
  end.

Definition link_outcome (web : string -> nat -> attempt) (tail : string)
    (o : match_outcome) : Prop :=
  exists (p : jsonParser) (hdr : bool),
    init (web ("https://www.rib.gg" ++ tail)%string) hdr = Ok (Some p) /\
    parse_outcome p o.

(** The header flags of [n] parsers built one after the other, [hdr] being
    the flag of the first. *)
Definition hdr_flags (hdr : bool) (n : nat) : list bool :=
  match n with
  | 0 => []
  | S k => hdr :: repeat false k
  end.

(** An attempt after which the loop goes on: a timeout or a response with
    an error status; and a response the loop does not keep. *)
Definition not_ok (a : attempt) : Prop :=
  match a with
  | Timeout => True
  | Responded r => response_ok r = false
  end.

Definition falsy_response (resp : option response) : Prop :=
  match resp with
  | Some r => response_ok r = false
  | None => True
  end.

(** The keys of the metadata, in the order of the dict display of
    [get_match_info]. *)
Definition metadata_keys : list string :=
  ["parentEvent"; "eventName"; "eventTime"; "eventRegion"; "bestOf"; "stage";
   "bracket"; "team1"; "team2"; "team1SeriesScore"; "team2SeriesScore";
   "matchId"; "mapName"; "gameStartTime"; "seriesMatchNumber"; "patchId";
   "seriesWinningTeamNumber"; "team1MatchScore"; "team2MatchScore";
   "seriesWinCondition"].

(** The string has no ['=']. *)
Definition no_eq (s : string) : Prop :=
  forall i, String.get i s <> Some "="%char.

(** ** Concrete payloads *)

Module Examples.

Definition stat (pid rn team : Z) : value :=
  VDict [("matchId", VInt 7); ("playerId", VInt pid); ("roundNumber", VInt rn);
         ("agentId", VInt 10); ("weaponId", VInt 0); ("teamNumber", VInt team);
         ("kills", VInt 2)].

Definition econ (pid rn : Z) : value :=
  VDict [("playerId", VInt pid); ("roundNumber", VInt rn);
         ("loadoutValue", VInt 800)].

Definition player (id : Z) (ign : string) : value :=
  VDict [("player", VDict [("id", VInt id); ("ign", VStr ign)])].

Definition round (n : Z) : value := VDict [("number", VInt n)].

Definition agents : list value :=
  [VDict [("id", VInt 10); ("name", VStr "Jett")]].

(** Match 7, with its rounds. *)
Definition the_match (rounds : list value) : value :=
  VDict
    [("id", VInt 7); ("map", VDict [("name", VStr "Bind")]);
     ("startDate", VStr "2023-08-06T10:00"); ("seriesMatchNumber", VInt 1);
     ("patchId", VInt 3); ("winningTeamNumber", VInt 1);
     ("team1Score", VInt 13); ("team2Score", VInt 5);
     ("winCondition", VStr "regulation");
     ("players", VList [player 1 "Alice"; player 2 "Bob"]);
     ("rounds", VList rounds)].

(** A page for match 7 of a series, from its rounds, stat records, economy
    records and agent table. *)
Definition mk_payload (rounds stats econs agents : list value) : value :=
  VDict
    [("matchId", VInt 7);
     ("series",
      VDict
        [("parentEventName", VStr "Champions"); ("eventName", VStr "Playoffs");
         ("startDate", VStr "2023-08-06"); ("eventRegionId", VInt 1);
         ("bestOf", VInt 3); ("stage", VStr "Upper"); ("bracket", VStr "Final");
         ("team1", VDict [("name", VStr "Alpha")]);
         ("team2", VDict [("name", VStr "Beta")]);
         ("team1Score", VInt 2); ("team2Score", VInt 0);
         ("matches", VList [the_match rounds]);
         ("playerStats", VList stats)]);
     ("matchDetails", VDict [("economies", VList econs)]);
     ("content",
      VDict
        [("weapons", VList []);
         ("agents", VList agents);
         ("regions", VList [VDict [("id", VInt 1); ("name", VStr "EMEA")]])])].

(** The metadata of these pages. *)
Definition meta : dict :=
  [("parentEvent", VStr "Champions"); ("eventName", VStr "Playoffs");
   ("eventTime", VStr "2023-08-06"); ("eventRegion", VStr "EMEA");
   ("bestOf", VInt 3); ("stage", VStr "Upper"); ("bracket", VStr "Final");
   ("team1", VStr "Alpha"); ("team2", VStr "Beta");
   ("team1SeriesScore", VInt 2); ("team2SeriesScore", VInt 0);
   ("matchId", VInt 7); ("mapName", VStr "Bind");
   ("gameStartTime", VStr "2023-08-06T10:00"); ("seriesMatchNumber", VInt 1);
   ("patchId", VInt 3); ("seriesWinningTeamNumber", VInt 1);
   ("team1MatchScore", VInt 13); ("team2MatchScore", VInt 5);
   ("seriesWinCondition", VStr "regulation")].

(** Two rounds, two players, one per team; the economy records of the first
    round come in the other order. *)
Definition payload : value :=
  mk_payload [round 1; round 2]
    [stat 1 1 1; stat 2 1 2; stat 1 2 1; stat 2 2 2]
    [econ 2 1; econ 1 1; econ 1 2; econ 2 2]
    agents.

(** The page props of a match that the site could not serve. *)
Definition payload_tossed : value :=
  VDict [("matchId", VInt 7); ("statusCode", VInt 500)].

(** A match without round detail. *)
Definition payload_no_rounds : value := mk_payload [] [] [] agents.

(** The agent of the stat records is missing from the agent table. *)
Definition payload_lookup_miss : value :=
  mk_payload [round 1] [stat 1 1 1; stat 2 1 2] [econ 1 1; econ 2 1] [].


Definition ign_table : table := [(VInt 1, VStr "Alice"); (VInt 2, VStr "Bob")].
Definition agent_table : table := [(VInt 10, VStr "Jett")].



(** An economy record that carries a weapon name of its own. *)
Definition econ_named : dict :=
  [("playerId", VInt 1); ("roundNumber", VInt 1); ("weaponName", VStr "Vandal")].

Definition econ1 : dict :=
  [("playerId", VInt 1); ("roundNumber", VInt 1); ("loadoutValue", VInt 800)].

Definition stat1 : dict :=
  [("matchId", VInt 7); ("playerId", VInt 1); ("roundNumber", VInt 1);
   ("agentId", VInt 10); ("weaponId", VInt 0); ("teamNumber", VInt 1)].

Definition parser_of (fm : value) (hdr : bool) : jsonParser :=
  {| form := fm; match_id := VInt 7; addHeader := hdr |}.


(** What [player_stats_data] returns for [payload]. *)
Definition payload_stats : list (list dict) * list (list dict) * value :=
  match player_stats_data payload (VInt 7) with
  | Ok r => r
  | Raise _ => ([], [], VNone)
  end.

(** What [get_rounds] returns for [payload]. *)
Definition payload_rounds : list dict * value :=
  match get_rounds payload (VInt 7) with
  | Ok r => r
  | Raise _ => ([], VNone)
  end.

(** The record [get_rounds] returns for round [k] of [payload]. *)
Definition round_record (k : nat) : dict := default [] (fst payload_rounds !! k).

(** What [csv_rows] returns for [payload]. *)
Definition payload_csv : list row * value :=
  match csv_rows (parser_of payload true) with
  | Ok r => r
  | Raise _ => ([], VNone)
  end.

(** The rows of [payload], with and without the header row. *)
Definition payload_rows (hdr : bool) : list row :=
  match parser_rows (Some (parser_of payload hdr)) with
  | Ok rows => rows
  | Raise _ => []
  end.

(** The page that embeds a payload. *)
Definition page (fm : value) : response :=
  {| status_code := 200;
     next_data := Some (VDict [("props", VDict [("pageProps", fm)])]) |}.

Definition server_error : response := {| status_code := 500; next_data := None |}.

Definition link_a : string := "/series/1?match=9".
Definition link_b : string := "/series/1?match=10".

(** Every link answers at once with the same page. *)
Definition web_const (r : response) : string -> nat -> attempt :=
  fun _ _ => Responded r.

(** The first link (in processing order) gets [r1], the other [r2]. *)
Definition web_two (r1 r2 : response) : string -> nat -> attempt :=
  fun link _ =>
    if String.eqb link "https://www.rib.gg/series/1?match=10"
    then Responded r1 else Responded r2.

Definition new_file : resultsDriver := {| fileExists := false; file := [] |}.
Definition old_file : resultsDriver := {| fileExists := true; file := [] |}.

End Examples.

(** ** The error monad *)

Lemma bind_Ok {A B} (m : result A) (k : A -> result B) (b : B) :
  bind m k = Ok b -> exists a, m = Ok a /\ k a = Ok b.
Proof. destruct m as [a|e]; simpl; [eauto | discriminate]. Qed.

Lemma bind_Raise {A B} (m : result A) (k : A -> result B) (e : exn) :
  bind m k = Raise e -> m = Raise e \/ exists a, m = Ok a /\ k a = Raise e.
Proof. destruct m as [a|e']; simpl; [eauto | intros [= ->]; auto]. Qed.

Lemma of_option_Ok {A} (o : option A) (e : exn) (a : A) :
  of_option o e = Ok a -> o = Some a.
Proof. destruct o; simpl; congruence. Qed.

(** Turn [bind m k = Ok b] hypotheses into their components. *)
Ltac inv_bind :=
  repeat match goal with
    | H : bind _ _ = Ok _ |- _ =>
        let x := fresh "x" in
        let E := fresh "E" in
        apply bind_Ok in H; destruct H as (x & E & H)
    | H : Ok _ = Ok _ |- _ => injection H as H
    | H : Raise _ = Ok _ |- _ => discriminate H
    | H : of_option _ _ = Ok _ |- _ => apply of_option_Ok in H
    end.

Lemma foldM_inv {A S} (P : S -> Prop) (f : S -> A -> result S) (l : list A) :
  (forall s x s', P s -> f s x = Ok s' -> P s') ->
  forall s s', P s -> foldM f l s = Ok s' -> P s'.
Proof.
  intros Hf. induction l as [|x l IH]; intros s s' Hs H; simpl in H.
  - by simplify_eq.
  - apply bind_Ok in H as (s1 & H1 & H). eauto.
Qed.

Lemma foldM_app {A S} (f : S -> A -> result S) (l1 l2 : list A) (s : S) :
  foldM f (l1 ++ l2) s = bind (foldM f l1 s) (foldM f l2).
Proof.
  revert s; induction l1 as [|x l1 IH]; intros s; simpl; [reflexivity|].
  destruct (f s x); simpl; auto.
Qed.

(** ** The order in which the links of a series are processed *)

Section SortLinks.

Lemma ascii_compare_N (x y : ascii) :
  Ascii.compare x y = N.compare (N_of_ascii x) (N_of_ascii y).
Proof. reflexivity. Qed.

Lemma compare_not_Gt_trans (a b c : string) :
  String.compare a b <> Gt -> String.compare b c <> Gt ->
  String.compare a c <> Gt.
Proof.
  revert b c; induction a as [|x a IH]; intros [|y b] [|z c]; simpl;
    try congruence.
  rewrite !ascii_compare_N.
  destruct (N.compare_spec (N_of_ascii x) (N_of_ascii y)) as [Exy|Lxy|Gxy];
    destruct (N.compare_spec (N_of_ascii y) (N_of_ascii z)) as [Eyz|Lyz|Gyz];
    destruct (N.compare_spec (N_of_ascii x) (N_of_ascii z)) as [Exz|Lxz|Gxz];
    try congruence; try lia; eauto.
Qed.

Lemma leb_trans (a b c : string) :
  String.leb a b = true -> String.leb b c = true -> String.leb a c = true.
Proof.
  unfold String.leb; intros Hab Hbc.
  pose proof (compare_not_Gt_trans a b c) as T.
  destruct (String.compare a b), (String.compare b c), (String.compare a c);
    try discriminate; try reflexivity; exfalso; apply T; congruence.
Qed.

Lemma ltb_not_leb (a b : string) :
  String.ltb a b = true -> String.leb b a = true -> False.
Proof.
  unfold String.ltb, String.leb. rewrite (String.compare_antisym b a).
  destruct (String.compare a b); simpl; congruence.
Qed.

Lemma insert_link_perm (x : string) (l : list string) :
  insert_link x l ≡ₚ x :: l.
Proof.
  induction l as [|y l IH]; simpl; [reflexivity|].
  destruct (String.leb _ _); [reflexivity|].
  rewrite IH. apply perm_swap.
Qed.

Lemma sort_links_perm (l : list string) : sort_links l ≡ₚ l.
Proof.
  induction l as [|x l IH]; simpl; [reflexivity|].
  rewrite insert_link_perm. by f_equiv.
Qed.

Lemma insert_link_Forall (P : string -> Prop) (x : string) (l : list string) :
  P x -> Forall P l -> Forall P (insert_link x l).
Proof.
  intros Hx Hl. rewrite insert_link_perm. by constructor.
Qed.

Lemma insert_link_sorted (x : string) (l : list string) :
  StronglySorted key_le l -> StronglySorted key_le (insert_link x l).
Proof.
  induction 1 as [|y l Hs IH Hy]; simpl.
  - repeat constructor.
  - destruct (String.leb (sort_key x) (sort_key y)) eqn:E.
    + constructor; [by constructor|].
      constructor; [exact E|].
      eapply Forall_impl; [exact Hy|].
      intros z Hz. unfold key_le in *. eapply leb_trans; eauto.
    + constructor; [exact IH|].
      apply insert_link_Forall; [|exact Hy].
      unfold key_le. destruct (String.leb_total (sort_key x) (sort_key y)); congruence.
Qed.

Lemma sort_links_sorted (l : list string) : StronglySorted key_le (sort_links l).
Proof.
  induction l as [|x l IH]; simpl; [constructor|].
  by apply insert_link_sorted.
Qed.

Lemma sorted_lookup (l : list string) (i j : nat) (a b : string) :
  StronglySorted key_le l -> i < j ->
  l !! i = Some a -> l !! j = Some b -> key_le a b.
Proof.
  intros Hs; revert i j; induction Hs as [|x l Hs IH Hx]; intros i j Hij Hi Hj.
  - discriminate.
  - destruct j as [|j]; [lia|]. destruct i as [|i]; simpl in *.
    + injection Hi as <-. rewrite Forall_forall in Hx. apply Hx.
      eapply list_elem_of_lookup_2; eauto.
    + eapply (IH i j); eauto; lia.
Qed.

(** Numerals of the same width are ordered as their values. *)
Lemma numeral_cons (c : ascii) (s : string) (v : N) :
  numeral (String c s) = Some v ->
  exists w, (48 <= N_of_ascii c <= 57)%N /\ numeral s = Some w /\
            v = ((N_of_ascii c - 48) * 10 ^ N.of_nat (String.length s) + w)%N.
Proof.
  simpl. unfold digit.
  destruct ((48 <=? N_of_ascii c)%N && (N_of_ascii c <=? 57)%N) eqn:D;
    [|discriminate].
  destruct (numeral s) as [w|]; [|discriminate]. intros [= <-].
  apply andb_prop in D as [D1 D2].
  apply N.leb_le in D1. apply N.leb_le in D2. eauto.
Qed.

Lemma numeral_bound (s : string) (v : N) :
  numeral s = Some v -> (v < 10 ^ N.of_nat (String.length s))%N.
Proof.
  revert v; induction s as [|c s IH]; intros v Hv.
  - injection Hv as <-. simpl. lia.
  - apply numeral_cons in Hv as (w & Hc & Hw & ->).
    specialize (IH w Hw). cbn [String.length].
    rewrite Nat2N.inj_succ, N.pow_succ_r'. nia.
Qed.

Lemma numeral_compare (s t : string) (m n : N) :
  String.length s = String.length t ->
  numeral s = Some m -> numeral t = Some n -> (m < n)%N ->
  String.compare s t = Lt.
Proof.
  revert t m n; induction s as [|c s IH]; intros [|c' t] m n Hlen Hm Hn Hlt;
    try discriminate.
  - injection Hm as <-. injection Hn as <-. lia.
  - injection Hlen as Hlen.
    apply numeral_cons in Hm as (v & Hc & Es & ->).
    apply numeral_cons in Hn as (w & Hc' & Et & ->).
    pose proof (numeral_bound _ _ Es) as Bv.
    pose proof (numeral_bound _ _ Et) as Bw.
    rewrite <- Hlen in Bw, Hlt.
    cbn [String.compare]. rewrite ascii_compare_N.
    destruct (N.compare_spec (N_of_ascii c) (N_of_ascii c')) as [E|L|G].
    + rewrite E in Hlt. eapply IH; eauto. lia.
    + reflexivity.
    + exfalso. nia.
Qed.

Lemma same_width_key_lt (a b : string) : same_width_lt a b -> key_lt a b.
Proof.
  intros (m & n & Ha & Hb & Hlen & Hlt). unfold key_lt, String.ltb.
  unfold key_number in Ha, Hb.
  assert (numeral (sort_key a) = Some m) as Ha'
    by (destruct (sort_key a); [discriminate | exact Ha]).
  assert (numeral (sort_key b) = Some n) as Hb'
    by (destruct (sort_key b); [discriminate | exact Hb]).
  by rewrite (numeral_compare _ _ m n Hlen Ha' Hb' Hlt).
Qed.

(** C9 (amended): [process_series] iterates over [sort_links map_links],
    which holds the extracted links, each as often as extracted, in ascending
    order of the text that follows the last ['='], compared as a string: a
    link whose trailing text is smaller in that order is processed before.
    Two trailing numerals of the same number of digits are so ordered by
    their values. *)
Theorem sort_links_order (l : list string) (i j : nat) (a b : string) :
  sort_links l !! i = Some a ->
  sort_links l !! j = Some b ->
  key_lt a b \/ same_width_lt a b ->
  sort_links l ≡ₚ l /\ i < j.
Proof.
  intros Hi Hj Hab. split; [apply sort_links_perm|].
  assert (key_lt a b) as Hlt by (destruct Hab; auto using same_width_key_lt).
  destruct (Nat.lt_trichotomy i j) as [?|[->|Hji]]; [assumption| |]; exfalso.
  - rewrite Hi in Hj. injection Hj as ->.
    unfold key_lt, String.ltb in Hlt.
    pose proof (String.compare_antisym (sort_key b) (sort_key b)) as A.
    destruct (String.compare (sort_key b) (sort_key b)); discriminate.
  - eapply ltb_not_leb; [exact Hlt|].
    exact (sorted_lookup _ _ _ _ _ (sort_links_sorted l) Hji Hj Hi).
Qed.

Lemma sort_links_order_witness :
  sort_links ["/series/1?match=12"; "/series/1?match=10"] ≡ₚ
    ["/series/1?match=12"; "/series/1?match=10"] /\ 0 < 1.
Proof.
  apply (sort_links_order _ 0 1 "/series/1?match=10" "/series/1?match=12").
  - reflexivity.
  - reflexivity.
  - right. exists 10%N, 12%N. repeat split; reflexivity.
Defined.

(** C9 as stated fails: the link whose trailing value is 10 is processed
    before the link whose trailing value is 9. *)
Lemma sort_links_not_numeric :
  sort_links [Examples.link_a; Examples.link_b] !! 1 = Some Examples.link_a /\
  sort_links [Examples.link_a; Examples.link_b] !! 0 = Some Examples.link_b /\
  key_number Examples.link_a = Some 9%N /\
  key_number Examples.link_b = Some 10%N /\
  (9 < 10)%N /\ ~ 1 < 0.
Proof. repeat split; try reflexivity; lia. Qed.

End SortLinks.

(** ** The driver *)

Section DriverFacts.

Variable web : string -> nat -> attempt.

Lemma process_link_rows (st : bool * list (list row)) (tail : string) :
  process_link web st tail =
    let* rows := match_rows_of web (negb (fst st)) tail in
    Ok (true, snd st ++ [rows]).
Proof.
  unfold process_link, match_rows_of.
  destruct (init _ _) as [p|e]; reflexivity.
Qed.

Lemma init_soft_failure (get : nat -> attempt) (hdr : bool) (r : response) :
  request_loop get 11 0 None = Some r ->
  status_code r = 500%Z \/ next_data r = None ->
  init get hdr = Ok None.
Proof.
  intros Hr Hsoft. unfold init. rewrite Hr.
  destruct (status_code r =? 500)%Z eqn:E; [reflexivity|].
  destruct Hsoft as [H|H]; [apply Z.eqb_neq in E; contradiction|].
  by rewrite H.
Qed.

(** C8: when the request of a match ends with a server error (status 500)
    or with a page without embedded JSON, [process_series] does not skip the
    match: the constructor returns before it assigns [self.form], and
    [csv_rows] raises [AttributeError] when it reads it. *)
Theorem soft_failure_raises (d : resultsDriver) (tail : string) (r : response) :
  request_loop (web ("https://www.rib.gg" ++ tail)%string) 11 0 None = Some r ->
  status_code r = 500%Z \/ next_data r = None ->
  process_series web d [tail] = Raise AttributeError.
Proof.
  intros Hr Hsoft. unfold process_series. simpl.
  rewrite process_link_rows. unfold match_rows_of.
  by rewrite (init_soft_failure _ _ r Hr Hsoft).
Qed.

Lemma foldM_process_link_raise (pre post : list string) (tail : string)
    (st0 st : bool * list (list row)) (e : exn) :
  foldM (process_link web) pre st0 = Ok st ->
  match_rows_of web (negb (fst st)) tail = Raise e ->
  foldM (process_link web) (pre ++ tail :: post) st0 = Raise e.
Proof.
  intros Hpre He. rewrite foldM_app, Hpre. simpl.
  rewrite process_link_rows, He. reflexivity.
Qed.

(** C7 (amended): a failure raised while a match is parsed (a lookup miss,
    a match that is not found, a malformed payload) is not caught by
    [process_series]: when the links before it were processed and the rows
    of a link raise [e], [process_series] raises [e], and so do the calls
    made for this series and the following ones: no row of the series is
    written and the later matches are not processed. *)
Theorem failure_propagates (d : resultsDriver) (links pre post : list string)
    (tail : string) (st : bool * list (list row)) (e : exn)
    (more : list (list string)) :
  sort_links links = pre ++ tail :: post ->
  foldM (process_link web) pre (fileExists d, []) = Ok st ->
  match_rows_of web (negb (fst st)) tail = Raise e ->
  process_series web d links = Raise e /\
  process_all web d (links :: more) = Raise e.
Proof.
  intros Hsort Hpre He.
  assert (process_series web d links = Raise e) as H.
  { unfold process_series. rewrite Hsort.
    by rewrite (foldM_process_link_raise pre post tail _ st e Hpre He). }
  split; [exact H|]. unfold process_all. simpl. by rewrite H.
Qed.

End DriverFacts.

Lemma soft_failure_raises_witness :
  process_series (Examples.web_const Examples.server_error) Examples.new_file
    [Examples.link_a] = Raise AttributeError.
Proof.
  apply (soft_failure_raises _ _ _ Examples.server_error).
  - reflexivity.
  - left. reflexivity.
Defined.

Lemma failure_propagates_witness :
  process_series
    (Examples.web_two (Examples.page Examples.payload_lookup_miss)
       (Examples.page Examples.payload))
    Examples.new_file [Examples.link_a; Examples.link_b] = Raise KeyError /\
  process_all
    (Examples.web_two (Examples.page Examples.payload_lookup_miss)
       (Examples.page Examples.payload))
    Examples.new_file [[Examples.link_a; Examples.link_b]; [Examples.link_a]]
    = Raise KeyError.
Proof.
  apply (failure_propagates _ _ _ [] [Examples.link_a] Examples.link_b (false, [])).
  - reflexivity.
  - reflexivity.
  - vm_compute. reflexivity.
Defined.

(** C7 as stated fails: the agent of the first match processed is missing
    from the agent table, the lookup raises [KeyError], and the run ends with
    this exception although the other match of the series parses. *)
Lemma lookup_miss_ends_run :
  process_all
    (Examples.web_two (Examples.page Examples.payload_lookup_miss)
       (Examples.page Examples.payload))
    Examples.new_file [[Examples.link_a; Examples.link_b]] = Raise KeyError /\
  match_rows_of
    (Examples.web_two (Examples.page Examples.payload_lookup_miss)
       (Examples.page Examples.payload))
    false Examples.link_a = Ok (Examples.payload_rows false).
Proof. split; vm_compute; reflexivity. Qed.

(** ** Dictionaries *)

Section Dictionaries.

Lemma dget_dset_eq (k : string) (v : value) (d : dict) :
  dget k (dset k v d) = Some v.
Proof.
  induction d as [|[k' v'] d IH]; simpl.
  - by rewrite String.eqb_refl.
  - destruct (String.eqb k k') eqn:E; simpl; rewrite E; auto.
Qed.

Lemma dget_dset_ne (k k' : string) (v : value) (d : dict) :
  k <> k' -> dget k (dset k' v d) = dget k d.
Proof.
  intros Hne. induction d as [|[k2 v2] d IH]; simpl.
  - apply String.eqb_neq in Hne. by rewrite Hne.
  - destruct (String.eqb k' k2) eqn:E; simpl.
    + apply String.eqb_eq in E as <-.
      apply String.eqb_neq in Hne. by rewrite Hne.
    + destruct (String.eqb k k2); auto.
Qed.

Lemma dget_dset (k k' : string) (v : value) (d : dict) :
  dget k (dset k' v d) = if String.eqb k k' then Some v else dget k d.
Proof.
  destruct (String.eqb k k') eqn:E.
  - apply String.eqb_eq in E as ->. apply dget_dset_eq.
  - apply String.eqb_neq in E. by apply dget_dset_ne.
Qed.

Lemma vget_vset_ne (k k' : string) (v x : value) :
  k <> k' -> vget k (vset k' v x) = vget k x.
Proof.
  intros Hne. destruct x; try reflexivity.
  unfold vset, vget, dget'. simpl. by rewrite dget_dset_ne.
Qed.

Lemma vget_is_dict (k : string) (x v : value) :
  vget k x = Ok v -> exists d, x = VDict d /\ dget k d = Some v.
Proof.
  destruct x; try discriminate.
  unfold vget, dget'. simpl. intros H. inv_bind. eauto.
Qed.


Lemma nodup_keys_cons (k : string) (v : value) (d : dict) :
  nodup_keys ((k, v) :: d) = true <-> dget k d = None /\ nodup_keys d = true.
Proof.
  simpl. destruct (dget k d); split; try tauto; try discriminate.
  intros [? _]. discriminate.
Qed.

Lemma nodup_keys_dset (k : string) (v : value) (d : dict) :
  nodup_keys d = true -> nodup_keys (dset k v d) = true.
Proof.
  induction d as [|[k' v'] d IH]; [done|].
  intros H. apply nodup_keys_cons in H as [Hk Hd]. simpl.
  destruct (String.eqb k k') eqn:E; apply nodup_keys_cons.
  - done.
  - apply String.eqb_neq in E. rewrite dget_dset_ne by done. auto.
Qed.

Lemma nodup_keys_dupdate (d other : dict) :
  nodup_keys d = true -> nodup_keys (dupdate d other) = true.
Proof.
  unfold dupdate. revert d; induction other as [|[k v] other IH]; intros d Hd;
    simpl; [done|].
  apply IH. by apply nodup_keys_dset.
Qed.

Lemma dget_dupdate (k : string) (d other : dict) :
  nodup_keys other = true ->
  dget k (dupdate d other) = merged_get other d k.
Proof.
  unfold dupdate, merged_get.
  revert d; induction other as [|[k' v'] other IH]; intros d Hn; simpl; [done|].
  apply nodup_keys_cons in Hn as [Hk Hn]. rewrite (IH _ Hn).
  destruct (String.eqb k k') eqn:E.
  - apply String.eqb_eq in E as ->. rewrite Hk. apply dget_dset_eq.
  - apply String.eqb_neq in E. by rewrite dget_dset_ne.
Qed.

Lemma dget_dremove_ne (k k' : string) (d : dict) :
  k <> k' -> dget k (dremove k' d) = dget k d.
Proof.
  intros Hne. induction d as [|[k2 v2] d IH]; simpl; [done|].
  destruct (String.eqb k' k2) eqn:E; simpl.
  - apply String.eqb_eq in E as <-.
    apply String.eqb_neq in Hne. by rewrite Hne.
  - by rewrite IH.
Qed.

Lemma dget_dremove_eq (k : string) (d : dict) :
  nodup_keys d = true -> dget k (dremove k d) = None.
Proof.
  induction d as [|[k' v'] d IH]; [done|].
  intros H. apply nodup_keys_cons in H as [Hk Hd]. simpl.
  destruct (String.eqb k k') eqn:E; simpl.
  - by apply String.eqb_eq in E as ->.
  - rewrite E. auto.
Qed.

Lemma nodup_keys_dremove (k : string) (d : dict) :
  nodup_keys d = true -> nodup_keys (dremove k d) = true.
Proof.
  induction d as [|[k' v'] d IH]; [done|].
  intros H. apply nodup_keys_cons in H as [Hk Hd]. simpl.
  destruct (String.eqb k k') eqn:E; [done|].
  apply nodup_keys_cons. split; [|auto].
  apply String.eqb_neq in E. rewrite dget_dremove_ne; [done|congruence].
Qed.

Lemma ddel_Ok (k : string) (d d' : dict) :
  ddel k d = Ok d' -> d' = dremove k d.
Proof. unfold ddel. destruct (dget k d); congruence. Qed.

End Dictionaries.

(** ** Equality of values *)

Section PyEq.

(** Induction on values, with the hypothesis for the members of a list and
    of a dict. *)
Lemma value_ind' (P : value -> Prop) :
  P VNone -> (forall b, P (VBool b)) -> (forall n, P (VInt n)) ->
  (forall s, P (VStr s)) ->
  (forall l, Forall P l -> P (VList l)) ->
  (forall d, Forall (fun kv => P (snd kv)) d -> P (VDict d)) ->
  forall v, P v.
Proof.
  intros HN HB HI HS HL HD.
  fix IH 1. intros [ | b | n | s | l | d ].
  - exact HN.
  - apply HB.
  - apply HI.
  - apply HS.
  - apply HL. induction l as [|x l IHl]; constructor; [apply IH | exact IHl].
  - apply HD. induction d as [|[k x] d IHd]; constructor; [apply IH | exact IHd].
Qed.

Lemma py_eq_VList (x y : list value) :
  py_eq (VList x) (VList y) = true <->
  Forall2 (fun a b => py_eq a b = true) x y.
Proof.
  revert y; induction x as [|a x IH]; intros [|b y]; simpl; split; intros H;
    try discriminate; try constructor; try (by inversion H).
  - apply andb_prop in H as [? ?]. done.
  - apply andb_prop in H as [? H]. by apply IH.
  - inversion H; subst. apply andb_true_intro. split; [done|]. by apply IH.
Qed.

Lemma py_eq_VDict (x y : dict) :
  py_eq (VDict x) (VDict y) = true <->
  length x = length y /\
  Forall (fun kv => exists w, dget (fst kv) y = Some w /\ py_eq (snd kv) w = true) x.
Proof.
  cbn [py_eq]. rewrite andb_true_iff, Nat.eqb_eq.
  apply and_iff_compat_l.
  induction x as [|[k v] x IH]; simpl.
  - split; [constructor | done].
  - rewrite andb_true_iff, IH. split.
    + intros [Hk Hx]. constructor; [|done]. simpl.
      destruct (dget k y) as [w|]; [eauto | discriminate].
    + intros H. inversion H as [|? ? (w & Hw & Hvw) Hx]; subst. simpl in *.
      by rewrite Hw.
Qed.

Lemma wf_VList (l : list value) :
  wf_value (VList l) = true <-> Forall (fun v => wf_value v = true) l.
Proof.
  simpl. rewrite forallb_forall, Forall_forall.
  split; intros H v Hv; apply H; by apply list_elem_of_In.
Qed.

Lemma wf_VDict (d : dict) :
  wf_value (VDict d) = true <->
  nodup_keys d = true /\ Forall (fun kv => wf_value (snd kv) = true) d.
Proof.
  cbn [wf_value]. rewrite andb_true_iff. apply and_iff_compat_l.
  induction d as [|[k v] d IH]; simpl.
  - split; [constructor | done].
  - rewrite andb_true_iff, IH. split.
    + intros [? ?]. by constructor.
    + intros H. by inversion H.
Qed.

Lemma dget_In (k : string) (d : dict) (v : value) :
  dget k d = Some v -> In (k, v) d.
Proof.
  induction d as [|[k' v'] d IH]; simpl; [discriminate|].
  destruct (String.eqb k k') eqn:E.
  - apply String.eqb_eq in E as ->. intros [= ->]. by left.
  - auto.
Qed.

Lemma dget_None (k : string) (d : dict) :
  dget k d = None <-> ~ In k (map fst d).
Proof.
  induction d as [|[k' v'] d IH]; simpl; [tauto|].
  destruct (String.eqb k k') eqn:E.
  - apply String.eqb_eq in E as ->. split; [discriminate | tauto].
  - apply String.eqb_neq in E. rewrite IH. split; [intros ? [?|?] | ]; intuition.
Qed.

Lemma nodup_keys_NoDup (d : dict) :
  nodup_keys d = true <-> List.NoDup (map fst d).
Proof.
  induction d as [|[k v] d IH]; simpl.
  - split; [constructor | done].
  - destruct (dget k d) as [w|] eqn:E.
    + split; [discriminate|]. intros H. inversion H as [|? ? Hn _]; subst.
      exfalso. apply Hn. apply dget_In in E.
      by apply (in_map fst) in E.
    + rewrite IH. apply dget_None in E. split.
      * by constructor.
      * intros H. by inversion H.
Qed.

Lemma nodup_keys_dget (d : dict) (k : string) (v : value) :
  nodup_keys d = true -> In (k, v) d -> dget k d = Some v.
Proof.
  induction d as [|[k' v'] d IH]; simpl; [done|].
  destruct (dget k' d) as [w|] eqn:E; [discriminate|].
  intros Hd [H|H].
  - simplify_eq. by rewrite String.eqb_refl.
  - destruct (String.eqb k k') eqn:Ek; [|auto].
    apply String.eqb_eq in Ek as ->.
    apply dget_None in E. exfalso. apply E. by apply (in_map fst) in H.
Qed.

Lemma dget_is_Some_In (k : string) (d : dict) :
  In k (map fst d) -> exists v, dget k d = Some v.
Proof.
  intros H. destruct (dget k d) eqn:E; [eauto|].
  by apply dget_None in E.
Qed.

Ltac scalar_eq :=
  repeat match goal with
    | H : Bool.eqb _ _ = true |- _ => apply Bool.eqb_prop in H
    | H : (_ =? _)%Z = true |- _ => apply Z.eqb_eq in H
    end;
  subst;
  try apply Z.eqb_eq;
  repeat match goal with
    | x : bool |- _ => destruct x
    end;
  cbn [Z.b2z Bool.eqb] in *; try reflexivity; try lia; try congruence.

(** Equality is right Euclidean on JSON documents: two values equal to a
    third one are equal. *)
Lemma py_eq_euclid (a : value) :
  forall b c, wf_value b = true ->
    py_eq a c = true -> py_eq b c = true -> py_eq a b = true.
Proof.
  induction a as [ | x | x | x | al IH | ad IH ] using value_ind';
    intros b c Hwf Hac Hbc.
  - destruct c; try discriminate. by destruct b.
  - destruct c as [ | y | y | | | ]; try discriminate;
      destruct b as [ | z | z | | | ]; try discriminate;
      cbn [py_eq] in *; scalar_eq.
  - destruct c as [ | y | y | | | ]; try discriminate;
      destruct b as [ | z | z | | | ]; try discriminate;
      cbn [py_eq] in *; scalar_eq.
  - destruct c; try discriminate. destruct b; try discriminate. simpl in *.
    apply String.eqb_eq in Hac, Hbc. subst. apply String.eqb_refl.
  - destruct c as [ | | | | cl | ]; try discriminate.
    destruct b as [ | | | | bl | ]; try discriminate.
    apply py_eq_VList in Hac, Hbc. apply py_eq_VList.
    apply wf_VList in Hwf.
    revert bl cl Hwf Hac Hbc.
    induction IH as [|a al Ha _ IHl]; intros bl cl Hwf Hac Hbc.
    + inversion Hac; subst. inversion Hbc; subst. constructor.
    + inversion Hac; subst. inversion Hbc; subst. inversion Hwf; subst.
      constructor; eauto.
  - destruct c as [ | | | | | cd ]; try discriminate.
    destruct b as [ | | | | | bd ]; try discriminate.
    apply py_eq_VDict in Hac as [Lac Hac], Hbc as [Lbc Hbc].
    apply wf_VDict in Hwf as [Hnd Hwf].
    apply py_eq_VDict. split; [congruence|].
    assert (incl (map fst cd) (map fst bd)) as Hincl.
    { apply NoDup_length_incl.
      - by apply nodup_keys_NoDup.
      - rewrite !length_map. lia.
      - intros k Hk. apply in_map_iff in Hk as ([k' u] & <- & Hin).
        rewrite Forall_forall in Hbc.
        apply list_elem_of_In, Hbc in Hin as (w & Hw & _). simpl in *.
        apply dget_In in Hw. by apply (in_map fst) in Hw. }
    rewrite Forall_forall in IH, Hac, Hbc, Hwf. apply Forall_forall.
    intros [k v] Hkv. simpl.
    destruct (Hac _ Hkv) as (w & Hw & Hvw). simpl in *.
    assert (In k (map fst bd)) as Hkb.
    { apply Hincl. apply dget_In in Hw. by apply (in_map fst) in Hw. }
    apply dget_is_Some_In in Hkb as [u Hu]. exists u. split; [done|].
    pose proof (dget_In _ _ _ Hu) as Hub. apply list_elem_of_In in Hub.
    destruct (Hbc _ Hub) as (w' & Hw' & Huw). simpl in *.
    rewrite Hw in Hw'. injection Hw' as <-.
    apply (IH _ Hkv u w); auto. by apply (Hwf _ Hub).
Qed.

End PyEq.

(** ** The resolution of a matched pair *)

Section Resolve.

Lemma keys_match_true (sd : dict) (e : value) :
  keys_match sd e = Ok true ->
  exists ed sp ep sr er,
    e = VDict ed /\
    dget "playerId" sd = Some sp /\ dget "playerId" ed = Some ep /\
    py_eq sp ep = true /\
    dget "roundNumber" sd = Some sr /\ dget "roundNumber" ed = Some er /\
    py_eq sr er = true.
Proof.
  unfold keys_match, vget, dget'. intros H. inv_bind.
  destruct e; try discriminate. simpl in *. simplify_eq.
  destruct (py_eq x x0) eqn:Ep; [|by simplify_eq].
  inv_bind. simplify_eq. eauto 15.
Qed.


Variables ignDict agentDict weaponDict : table.

(** C3 (amended): when a stat record and an economy record match, the
    record resolved from them has, under every key that the resolution does
    not handle, the value of the stat record when it has the key and the
    value of the economy record otherwise; [playerIgn] and [agent] hold the
    names the tables give for the player id and the agent id; when the
    weapon id is truthy [weaponName] holds the name the weapon table gives
    for it; when it is falsy the weapon table is not consulted and no
    [weaponName] is added, so the record has a [weaponName] only if one of
    the two raw records had one; the keys [playerId], [agentId] and
    [weaponId] are absent. *)
Theorem resolve_record (sd playerEcon r : dict) :
  nodup_keys sd = true ->
  nodup_keys playerEcon = true ->
  keys_match sd (VDict playerEcon) = Ok true ->
  resolve ignDict agentDict weaponDict sd playerEcon = Ok r ->
  (forall k, ~ In k resolved_keys -> dget k r = merged_get sd playerEcon k) /\
  (exists pid name,
      dget "playerId" sd = Some pid /\ table_get ignDict pid = Ok name /\
      dget "playerIgn" r = Some name) /\
  (exists aid name,
      merged_get sd playerEcon "agentId" = Some aid /\
      table_get agentDict aid = Ok name /\ dget "agent" r = Some name) /\
  (exists wid,
      merged_get sd playerEcon "weaponId" = Some wid /\
      if truthy wid
      then exists name, table_get weaponDict wid = Ok name /\
                        dget "weaponName" r = Some name
      else dget "weaponName" r = merged_get sd playerEcon "weaponName" /\
           forall weaponDict',
             resolve ignDict agentDict weaponDict' sd playerEcon = Ok r) /\
  dget "playerId" r = None /\ dget "agentId" r = None /\
  dget "weaponId" r = None.
Proof.
  intros Hsd He Hm Hr.
  apply keys_match_true in Hm as (ed & sp & ep & sr & er & Hed & Hsp & _).
  unfold resolve in Hr. unfold dget' in Hr.
  apply bind_Ok in Hr as (pid & Epid & Hr). apply of_option_Ok in Epid.
  apply bind_Ok in Hr as (ign & Eign & Hr).
  apply bind_Ok in Hr as (aid & Eaid & Hr). apply of_option_Ok in Eaid.
  apply bind_Ok in Hr as (ag & Eag & Hr).
  apply bind_Ok in Hr as (wid & Ewid & Hr). apply of_option_Ok in Ewid.
  apply bind_Ok in Hr as (m3 & Em3 & Hr).
  apply bind_Ok in Hr as (m4 & Em4 & Hr).
  pose proof Em4 as Em4'. apply ddel_Ok in Em4.
  apply bind_Ok in Hr as (m5 & Em5 & Hr).
  pose proof Em5 as Em5'. apply ddel_Ok in Em5.
  pose proof Hr as Hr'. apply ddel_Ok in Hr.
  set (m0 := dupdate playerEcon sd) in *.
  assert (nodup_keys m0 = true) as Hm0 by by apply nodup_keys_dupdate.
  assert (forall k, dget k m0 = merged_get sd playerEcon k) as Hget
    by (intros k; by apply dget_dupdate).
  rewrite dget_dset_ne in Eaid by discriminate.
  rewrite !dget_dset_ne in Ewid by discriminate.
  rewrite Hget in Epid, Eaid, Ewid.
  assert (nodup_keys m3 = true) as Hm3.
  { destruct (truthy wid); inv_bind; subst m3; auto using nodup_keys_dset. }
  assert (forall k, k <> "weaponName" ->
            dget k m3 =
              if String.eqb k "agent" then Some ag
              else if String.eqb k "playerIgn" then Some ign
                   else merged_get sd playerEcon k) as Hm3get.
  { intros k Hk.
    assert (dget k m3 = dget k (dset "agent" ag (dset "playerIgn" ign m0))) as ->.
    { destruct (truthy wid); inv_bind; subst m3; [|done].
      by rewrite dget_dset_ne. }
    by rewrite !dget_dset, Hget. }
  assert (forall k, k <> "playerId" -> k <> "agentId" -> k <> "weaponId" ->
            dget k r = dget k m3) as Hrget.
  { intros k H1 H2 H3. subst r m5 m4. by rewrite !dget_dremove_ne. }
  split; [|split; [|split; [|split; [|split; [|split]]]]].
  - intros k Hk. unfold resolved_keys in Hk. simpl in Hk.
    assert (k <> "playerId" /\ k <> "agentId" /\ k <> "weaponId" /\
            k <> "playerIgn" /\ k <> "agent" /\ k <> "weaponName")
      as (H1 & H2 & H3 & H4 & H5 & H6) by (repeat split; intros ->; tauto).
    rewrite Hrget, Hm3get by done.
    apply String.eqb_neq in H4, H5. by rewrite H4, H5.
  - exists pid, ign. unfold merged_get in Epid. rewrite Hsp in Epid.
    injection Epid as ->. split; [done|]. split; [done|].
    rewrite Hrget, Hm3get by discriminate. done.
  - exists aid, ag. split; [done|]. split; [done|].
    rewrite Hrget, Hm3get by discriminate. done.
  - exists wid. split; [done|]. destruct (truthy wid) eqn:Ht.
    + apply bind_Ok in Em3 as (wn & Ewn & Em3). injection Em3 as <-.
      exists wn. split; [done|]. rewrite Hrget by discriminate.
      apply dget_dset_eq.
    + injection Em3 as <-. split.
      * rewrite Hrget by discriminate. by rewrite !dget_dset_ne, Hget.
      * intros weaponDict'. unfold resolve, dget'. fold m0.
        rewrite Hget, Epid. simpl. rewrite Eign. simpl.
        rewrite dget_dset_ne, Hget, Eaid by discriminate. simpl.
        rewrite Eag. simpl.
        rewrite !dget_dset_ne, Hget, Ewid by discriminate. simpl.
        rewrite Ht. simpl. rewrite Em4'. simpl. rewrite Em5'. exact Hr'.
  - subst r m5 m4. rewrite !dget_dremove_ne by discriminate.
    by apply dget_dremove_eq.
  - subst r m5 m4. rewrite dget_dremove_ne by discriminate.
    apply dget_dremove_eq. by apply nodup_keys_dremove.
  - subst r m5 m4. apply dget_dremove_eq. by do 2 apply nodup_keys_dremove.
Qed.

End Resolve.

Lemma resolve_record_witness :
  let r := [("roundNumber", VInt 1); ("loadoutValue", VInt 800);
            ("matchId", VInt 7); ("teamNumber", VInt 1);
            ("playerIgn", VStr "Alice"); ("agent", VStr "Jett")] in
  (forall k, ~ In k resolved_keys ->
             dget k r = merged_get Examples.stat1 Examples.econ1 k) /\
  (exists pid name,
      dget "playerId" Examples.stat1 = Some pid /\
      table_get Examples.ign_table pid = Ok name /\
      dget "playerIgn" r = Some name) /\
  (exists aid name,
      merged_get Examples.stat1 Examples.econ1 "agentId" = Some aid /\
      table_get Examples.agent_table aid = Ok name /\
      dget "agent" r = Some name) /\
  (exists wid,
      merged_get Examples.stat1 Examples.econ1 "weaponId" = Some wid /\
      if truthy wid
      then exists name, table_get [] wid = Ok name /\
                        dget "weaponName" r = Some name
      else dget "weaponName" r
             = merged_get Examples.stat1 Examples.econ1 "weaponName" /\
           forall weaponDict',
             resolve Examples.ign_table Examples.agent_table weaponDict'
               Examples.stat1 Examples.econ1 = Ok r) /\
  dget "playerId" r = None /\ dget "agentId" r = None /\
  dget "weaponId" r = None.
Proof.
  apply (resolve_record Examples.ign_table Examples.agent_table []
           Examples.stat1 Examples.econ1); reflexivity.
Defined.

(** C3 as stated fails: the weapon id of the stat record is 0, yet the
    resolved record has a [weaponName], the one the economy record had. *)
Lemma weapon_name_kept :
  exists r,
    keys_match Examples.stat1 (VDict Examples.econ_named) = Ok true /\
    resolve Examples.ign_table Examples.agent_table []
      Examples.stat1 Examples.econ_named = Ok r /\
    merged_get Examples.stat1 Examples.econ_named "weaponId" = Some (VInt 0) /\
    truthy (VInt 0) = false /\
    dget "weaponName" r = Some (VStr "Vandal").
Proof. eexists. repeat split; reflexivity. Qed.

(** ** The loops of player_stats_data *)

Section Loops.

Variables ignDict agentDict weaponDict : table.
Variable playerStats : list dict.















Lemma join_one_store_length (st st' : round_state) (j : nat) :
  join_one ignDict agentDict weaponDict playerStats st j = Ok st' ->
  length (rs_store st') = length (rs_store st).
Proof.
  unfold join_one. intros H. inv_bind. destruct x as [player|].
  - inv_bind. simplify_eq. simpl. apply length_insert.
  - by simplify_eq.
Qed.

Lemma join_round_store_length (n : nat) (st st' : stats_state) (i : nat) :
  join_round ignDict agentDict weaponDict playerStats n st i = Ok st' ->
  length (ss_store st') = length (ss_store st).
Proof.
  unfold join_round. intros H. inv_bind. simplify_eq. simpl.
  revert E. apply (foldM_inv (fun r => length (rs_store r) = length (ss_store st))).
  - intros s j s' Hs Hj. by rewrite (join_one_store_length _ _ _ Hj).
  - reflexivity.
Qed.










End Loops.


Lemma player_stats_data_inv (fm mid : value) (t1 t2 : list (list dict))
    (fm1 : value) :
  player_stats_data fm mid = Ok (t1, t2, fm1) ->
  exists ignDict agentDict weaponDict playerStats details economy,
    get_ign_dict fm mid = Ok ignDict /\ get_agent_dict fm = Ok agentDict /\
    get_weapon_dict fm = Ok weaponDict /\ match_stats fm mid = Ok playerStats /\
    vget "matchDetails" fm = Ok details /\
    vget "economies" details = Ok economy /\
    ((range_step (length playerStats) (Nat.max (length ignDict) 1) = [] /\
      t1 = [] /\ t2 = [] /\ fm1 = fm) \/
     exists store st,
       economy = VList store /\
       foldM (join_round ignDict agentDict weaponDict playerStats
                (Nat.max (length ignDict) 1))
         (range_step (length playerStats) (Nat.max (length ignDict) 1))
         {| ss_store := store; ss_team1 := []; ss_team2 := [] |} = Ok st /\
       t1 = ss_team1 st /\ t2 = ss_team2 st /\
       fm1 = vset "matchDetails"
               (vset "economies" (VList (ss_store st)) details) fm).
Proof.
  unfold player_stats_data. intros H.
  apply bind_Ok in H as (stats & Hstats & H).
  apply bind_Ok in H as (details & Hd & H).
  apply bind_Ok in H as (economy & He & H).
  apply bind_Ok in H as (ign & Hign & H).
  apply bind_Ok in H as (ag & Hag & H).
  apply bind_Ok in H as (wp & Hwp & H).
  exists ign, ag, wp, stats, details, economy. repeat (split; [done|]).
  destruct (range_step _ _) as [|i0 starts] eqn:Er.
  - left. by simplify_eq.
  - right. apply bind_Ok in H as (store & Hst & H).
    apply bind_Ok in H as (st & Hfold & H).
    destruct economy; try discriminate. simpl in Hst. simplify_eq.
    by exists store, st.
Qed.






(** ** get_rounds and csv_rows *)

Section Rounds.

(** [player_stats_data] touches the form below [matchDetails] only. *)
Lemma player_stats_data_form (fm mid : value) (t1 t2 : list (list dict))
    (fm1 : value) :
  player_stats_data fm mid = Ok (t1, t2, fm1) ->
  fm1 = fm \/
  exists details store,
    vget "matchDetails" fm = Ok details /\
    fm1 = vset "matchDetails" (vset "economies" (VList store) details) fm.
Proof.
  intros H. apply player_stats_data_inv in H
    as (ign & ag & wp & stats & details & economy & _ & _ & _ & _ & Hd & _
        & [(_ & _ & _ & ->)|(store & st & _ & _ & _ & _ & ->)]).
  - by left.
  - right. eauto.
Qed.

Lemma player_stats_data_series (fm mid : value) (t1 t2 : list (list dict))
    (fm1 : value) :
  player_stats_data fm mid = Ok (t1, t2, fm1) ->
  vget "series" fm1 = vget "series" fm.
Proof.
  intros H. apply player_stats_data_form in H as [->|(d & st & _ & ->)]; [done|].
  by apply vget_vset_ne.
Qed.

Lemma get_rounds_inv (fm mid : value) (rs : list dict) (fm' : value) :
  get_rounds fm mid = Ok (rs, fm') ->
  exists ms n m rounds t1 t2 fm1 series,
    series_matches fm = Ok ms /\ find_match mid ms 0 = Ok (Some n) /\
    ms !! n = Some m /\ vget "rounds" m = Ok (VList rounds) /\
    player_stats_data fm mid = Ok (t1, t2, fm1) /\
    attach_all t1 t2 0 rounds = Ok rs /\
    vget "series" fm = Ok series /\
    fm' = vset "series"
            (vset "matches"
               (VList (<[n := vset "rounds" (VList (map VDict rs)) m]> ms)) series)
            fm1.
Proof.
  unfold get_rounds. intros H. inv_bind.
  destruct x3 as [[t1 t2] fm1]. inv_bind.
  destruct x0 as [n|]; [|discriminate].
  unfold at_index, list_get in E1. inv_bind.
  destruct x2; try discriminate. simpl in E4.
  rewrite (player_stats_data_series _ _ _ _ _ E3) in E6.
  simplify_eq. repeat eexists; eauto.
Qed.

Lemma located_match_inv (fm mid m : value) :
  located_match fm mid = Ok m ->
  exists ms n, series_matches fm = Ok ms /\ find_match mid ms 0 = Ok (Some n) /\
               ms !! n = Some m.
Proof.
  unfold located_match. intros H. inv_bind.
  destruct x0 as [n|]; [|discriminate].
  unfold at_index, list_get in H. inv_bind. eauto.
Qed.

(** C5: when the rounds list of the located match is empty, [csv_rows]
    returns one row, the values of the metadata in their order, whatever the
    header flag of the parser. *)
Theorem csv_rows_zero_rounds (p : jsonParser) (m : value) (matchData : dict)
    (t1 t2 : list (list dict)) (fm1 : value) :
  tossed (form p) = Ok false ->
  located_match (form p) (match_id p) = Ok m ->
  vget "rounds" m = Ok (VList []) ->
  get_match_info (form p) (match_id p) = Ok matchData ->
  player_stats_data (form p) (match_id p) = Ok (t1, t2, fm1) ->
  exists fm', csv_rows p = Ok ([dvalues matchData], fm') /\
              length (dvalues matchData) = 20.
Proof.
  intros Ht Hm Hr Hmd Hps.
  apply located_match_inv in Hm as (ms & n & Hms & Hfind & Hn).
  assert (exists series, vget "series" (form p) = Ok series) as [series Hs].
  { unfold series_matches in Hms. inv_bind. eauto. }
  unfold csv_rows. rewrite Ht, Hmd. simpl.
  unfold get_rounds. rewrite Hms. simpl. rewrite Hfind. simpl.
  unfold list_get. rewrite Hn. simpl. rewrite Hr. simpl. rewrite Hps. simpl.
  rewrite (player_stats_data_series _ _ _ _ _ Hps), Hs. simpl.
  eexists. split; [reflexivity|].
  unfold get_match_info in Hmd. inv_bind. by subst matchData.
Qed.

Lemma csv_rows_zero_rounds_witness :
  exists fm',
    csv_rows (Examples.parser_of Examples.payload_no_rounds true) =
      Ok ([dvalues Examples.meta], fm') /\
    length (dvalues Examples.meta) = 20.
Proof.
  apply (csv_rows_zero_rounds
           (Examples.parser_of Examples.payload_no_rounds true)
           (Examples.the_match []) Examples.meta [] []
           Examples.payload_no_rounds);
    vm_compute; reflexivity.
Defined.

Lemma attach_all_spec (t1 t2 : list (list dict)) (rounds : list value) :
  forall (num : nat) (rs : list dict),
    attach_all t1 t2 num rounds = Ok rs ->
    length rs = length rounds /\
    forall k r, rs !! k = Some r ->
      exists round a b,
        rounds !! k = Some (VDict round) /\
        t1 !! (num + k) = Some a /\ t2 !! (num + k) = Some b /\
        r = dset "team2Players" (players_or_none b)
              (dset "team1Players" (players_or_none a) round).
Proof.
  induction rounds as [|round rounds IH]; intros num rs H; simpl in H.
  - simplify_eq. split; [done|]. intros k r Hk. discriminate.
  - inv_bind. simplify_eq. apply IH in E0 as [Hlen Hrs].
    split; [simpl; by rewrite Hlen|].
    intros [|k] r Hk; simpl in Hk.
    + simplify_eq. unfold attach_players, list_get in E. inv_bind.
      destruct round; try discriminate. simpl in E1. simplify_eq.
      rewrite Nat.add_0_r. eauto 10.
    + apply Hrs in Hk as (rd & a & b & ? & ? & ? & ?).
      exists rd, a, b. rewrite <- Nat.add_succ_comm. by repeat split.
Qed.

Lemma players_or_none_value (l : list dict) : players_or_none l = players_value l.
Proof. by destruct l. Qed.

(** C1: when [get_rounds] returns, it returns as many round records as the
    rounds list of the located match has entries, and the record of round
    [k] has the keys [team1Players] and [team2Players], each holding the
    list [player_stats_data] resolved for that round and team when this list
    is not empty, and [None] when it is empty; its other keys are those of
    the round entry. *)
Theorem get_rounds_records (fm mid : value) (rs : list dict) (fm' : value) :
  get_rounds fm mid = Ok (rs, fm') ->
  exists m rounds t1 t2 fm1,
    located_match fm mid = Ok m /\
    vget "rounds" m = Ok (VList rounds) /\
    player_stats_data fm mid = Ok (t1, t2, fm1) /\
    length rs = length rounds /\
    forall k r, rs !! k = Some r ->
      exists round a b,
        rounds !! k = Some (VDict round) /\
        t1 !! k = Some a /\ t2 !! k = Some b /\
        dget "team1Players" r = Some (players_value a) /\
        dget "team2Players" r = Some (players_value b) /\
        forall key, key <> "team1Players" -> key <> "team2Players" ->
                    dget key r = dget key round.
Proof.
  intros H.
  apply get_rounds_inv in H
    as (ms & n & m & rounds & t1 & t2 & fm1 & series & Hms & Hfind & Hn & Hr
        & Hps & Hatt & _ & _).
  exists m, rounds, t1, t2, fm1.
  apply attach_all_spec in Hatt as [Hlen Hrs].
  split.
  { unfold located_match. rewrite Hms. simpl. rewrite Hfind. simpl.
    unfold list_get. by rewrite Hn. }
  repeat split; auto.
  intros k r Hk. apply Hrs in Hk as (round & a & b & Hround & Ha & Hb & ->).
  exists round, a, b. rewrite <- !players_or_none_value.
  repeat split; auto.
  - rewrite dget_dset_ne by discriminate. apply dget_dset_eq.
  - apply dget_dset_eq.
  - intros key H1 H2. by rewrite !dget_dset_ne.
Qed.

Lemma get_rounds_records_witness :
  exists m rounds t1 t2 fm1,
    located_match Examples.payload (VInt 7) = Ok m /\
    vget "rounds" m = Ok (VList rounds) /\
    player_stats_data Examples.payload (VInt 7) = Ok (t1, t2, fm1) /\
    length (fst Examples.payload_rounds) = length rounds /\
    forall k r, fst Examples.payload_rounds !! k = Some r ->
      exists round a b,
        rounds !! k = Some (VDict round) /\
        t1 !! k = Some a /\ t2 !! k = Some b /\
        dget "team1Players" r = Some (players_value a) /\
        dget "team2Players" r = Some (players_value b) /\
        forall key, key <> "team1Players" -> key <> "team2Players" ->
                    dget key r = dget key round.
Proof.
  apply (get_rounds_records Examples.payload (VInt 7) _
           (snd Examples.payload_rounds)).
  vm_compute. reflexivity.
Defined.

Lemma csv_rows_outcome (p : jsonParser) (rows : list row) (fm' : value) :
  csv_rows p = Ok (rows, fm') ->
  exists o, parse_outcome p o /\ rows = rows_of_outcome (addHeader p) o.
Proof.
  unfold csv_rows. intros H. inv_bind. destruct x.
  - simplify_eq. by exists Skipped.
  - inv_bind. destruct x0 as [rounds fm1]. inv_bind. simplify_eq.
    exists (Parsed x rounds). split; [simpl; eauto|].
    unfold match_rows in E2. destruct rounds as [|r0 rest]; [by simplify_eq|].
    destruct (addHeader p); simpl in *; inv_bind; by simplify_eq.
Qed.










End Rounds.

(** ** Which match gets the header *)

Section Header.

Variable web : string -> nat -> attempt.

Lemma init_addHeader (get : nat -> attempt) (hdr : bool) (p : jsonParser) :
  init get hdr = Ok (Some p) -> addHeader p = hdr.
Proof.
  unfold init. destruct (request_loop _ _ _ _) as [r|]; [|discriminate].
  destruct (status_code r =? 500)%Z; [discriminate|].
  destruct (next_data r); [|discriminate].
  intros H. inv_bind. by simplify_eq.
Qed.

Lemma match_rows_of_outcome (hdr : bool) (tail : string) (rows : list row) :
  match_rows_of web hdr tail = Ok rows ->
  exists o, link_outcome web tail o /\ rows = rows_of_outcome hdr o.
Proof.
  unfold match_rows_of. intros H. inv_bind.
  destruct x as [p|]; [|discriminate]. simpl in H. inv_bind.
  destruct x as [rows' fm']. simplify_eq.
  apply csv_rows_outcome in E0 as (o & Ho & ->).
  rewrite (init_addHeader _ _ _ E). exists o. split; [|done].
  by exists p, hdr.
Qed.

Lemma hdr_flags_false (n : nat) : hdr_flags false n = repeat false n.
Proof. by destruct n. Qed.



Lemma foldM_process_link_rows (links : list string) (fe : bool)
    (acc : list (list row)) (st' : bool * list (list row)) :
  foldM (process_link web) links (fe, acc) = Ok st' ->
  exists outs,
    Forall2 (link_outcome web) links outs /\
    snd st' = acc ++ zip_with rows_of_outcome
                       (hdr_flags (negb fe) (length outs)) outs /\
    fst st' = fe || negb (Nat.eqb (length links) 0).
Proof.
  revert fe acc; induction links as [|t links IH]; intros fe acc H; simpl in H.
  - simplify_eq. exists []. simpl. rewrite app_nil_r, orb_false_r. by repeat split.
  - inv_bind. rewrite process_link_rows in E. inv_bind. simplify_eq.
    apply match_rows_of_outcome in E0 as (o & Ho & ->).
    apply IH in H as (outs & Hall & Hsnd & Hfst). simpl in *.
    exists (o :: outs). split; [by constructor|]. split.
    + rewrite Hsnd. simpl. by rewrite hdr_flags_false, <- app_assoc.
    + rewrite Hfst. by rewrite orb_true_r.
Qed.

Lemma process_series_rows (d d' : resultsDriver) (links : list string) :
  process_series web d links = Ok d' ->
  exists outs,
    Forall2 (link_outcome web) (sort_links links) outs /\
    file d' = file d ++ concat (zip_with rows_of_outcome
                                  (hdr_flags (negb (fileExists d)) (length outs))
                                  outs) /\
    fileExists d' = fileExists d || negb (Nat.eqb (length outs) 0).
Proof.
  unfold process_series. intros H. inv_bind. destruct x as [fe' matches].
  simplify_eq. apply foldM_process_link_rows in E as (outs & Hall & Hsnd & Hfst).
  simpl in *. exists outs. split; [done|]. split; [by rewrite Hsnd|].
  by rewrite Hfst, (Forall2_length _ _ _ Hall).
Qed.


End Header.



(** ** The lookup tables *)

Section Tables.

Lemma py_eq_hashable_refl (k : value) : hashable k = true -> py_eq k k = true.
Proof.
  destruct k; try discriminate; intros _; simpl.
  - reflexivity.
  - by destruct b.
  - apply Z.eqb_refl.
  - apply String.eqb_refl.
Qed.

Lemma hashable_wf (k : value) : hashable k = true -> wf_value k = true.
Proof. by destruct k. Qed.

Lemma py_eq_hashable_sym (a b : value) :
  hashable a = true -> hashable b = true ->
  py_eq a b = true -> py_eq b a = true.
Proof.
  intros Ha Hb H. apply (py_eq_euclid b a b); auto using hashable_wf.
  by apply py_eq_hashable_refl.
Qed.

(** The keys of a table are hashable and no two of them are equal. *)
Lemma tfind_tinsert_eq (k v : value) (t : table) :
  hashable k = true -> tfind k (tinsert k v t) = Some v.
Proof.
  intros Hk. induction t as [|[k' v'] t IH]; simpl.
  - by rewrite py_eq_hashable_refl.
  - destruct (py_eq k' k) eqn:E; simpl; by rewrite E.
Qed.

Lemma tfind_tinsert_ne (k k' v : value) (t : table) :
  hashable k = true -> hashable k' = true ->
  Forall (fun kv => hashable (fst kv) = true) t ->
  py_eq k' k = false ->
  tfind k (tinsert k' v t) = tfind k t.
Proof.
  intros Hk Hk' Ht Hne. induction Ht as [|[k2 v2] t Hk2 _ IH]; simpl in *.
  - by rewrite Hne.
  - destruct (py_eq k2 k') eqn:E; simpl.
    + destruct (py_eq k2 k) eqn:E2; [|done]. exfalso.
      assert (py_eq k' k = true); [|congruence].
      apply (py_eq_euclid k' k k2); auto using hashable_wf.
      * by apply py_eq_hashable_sym.
      * by apply py_eq_hashable_sym.
    + by rewrite IH.
Qed.

Lemma tinsert_hashable (k v : value) (t : table) :
  hashable k = true ->
  Forall (fun kv => hashable (fst kv) = true) t ->
  Forall (fun kv => hashable (fst kv) = true) (tinsert k v t).
Proof.
  intros Hk Ht. induction Ht as [|[k2 v2] t Hk2 Ht IH]; simpl.
  - by repeat constructor.
  - destruct (py_eq k2 k); constructor; simpl in *; auto.
Qed.

Lemma tinsert_length (k v : value) (t : table) :
  length (tinsert k v t) <= S (length t).
Proof.
  induction t as [|[k2 v2] t IH]; simpl; [lia|].
  destruct (py_eq k2 k); simpl; lia.
Qed.

Lemma table_set_Ok (t t' : table) (k v : value) :
  table_set t k v = Ok t' -> hashable k = true /\ t' = tinsert k v t.
Proof. unfold table_set. destruct (hashable k); [|discriminate]. by intros [= <-]. Qed.

Lemma build_step (idk valk : string) (t t' : table) (e : value) :
  (let* v := vget valk e in let* k := vget idk e in table_set t k v) = Ok t' ->
  exists k v, vget idk e = Ok k /\ vget valk e = Ok v /\
              hashable k = true /\ t' = tinsert k v t.
Proof.
  intros H. apply bind_Ok in H as (v & Hv & H).
  apply bind_Ok in H as (k & Hk & H).
  apply table_set_Ok in H as [Hh ->]. eauto 10.
Qed.

Lemma build_fold_hashable (idk valk : string) (entries : list value)
    (t0 t : table) :
  foldM (fun t e =>
           let* v := vget valk e in let* k := vget idk e in table_set t k v)
    entries t0 = Ok t ->
  Forall (fun kv => hashable (fst kv) = true) t0 ->
  Forall (fun kv => hashable (fst kv) = true) t.
Proof.
  intros H H0. revert H.
  apply (foldM_inv (fun t => Forall (fun kv => hashable (fst kv) = true) t));
    [|done].
  intros s e s' Hs He. apply build_step in He as (k & v & _ & _ & Hk & ->).
  by apply tinsert_hashable.
Qed.

Lemma build_fold_keeps (idk valk : string) (k v : value) (post : list value) :
  hashable k = true ->
  Forall (fun e' => exists k', vget idk e' = Ok k' /\ py_eq k' k = false) post ->
  forall t0 t : table,
    foldM (fun t e =>
             let* v := vget valk e in let* k := vget idk e in table_set t k v)
      post t0 = Ok t ->
    Forall (fun kv => hashable (fst kv) = true) t0 ->
    tfind k t0 = Some v -> tfind k t = Some v.
Proof.
  intros Hk Hpost. induction Hpost as [|e' post (k' & Hk' & Hne) _ IH];
    intros t0 t H Ht0 Hfind; cbn [foldM] in H.
  - by injection H as <-.
  - apply bind_Ok in H as (t1 & H1 & H).
    apply build_step in H1 as (k2 & v2 & Hk2 & _ & Hh & ->).
    rewrite Hk' in Hk2. injection Hk2 as <-.
    apply (IH _ _ H).
    + by apply tinsert_hashable.
    + by rewrite tfind_tinsert_ne.
Qed.

(** X1: in a table built from a list of [{id, name}] entries, an id is
    mapped to the name of the last entry that carries it: the entry [e]
    decides when no later entry has an id equal to its id. *)
Theorem build_table_last_wins (idk valk : string) (pre post : list value)
    (e k v : value) (t : table) :
  build_table idk valk (pre ++ e :: post) = Ok t ->
  vget idk e = Ok k -> vget valk e = Ok v ->
  Forall (fun e' => exists k', vget idk e' = Ok k' /\ py_eq k' k = false) post ->
  table_get t k = Ok v.
Proof.
  unfold build_table. intros H Hk Hv Hpost.
  rewrite foldM_app in H. apply bind_Ok in H as (t1 & H1 & H).
  cbn [foldM] in H. apply bind_Ok in H as (t2 & H2 & H).
  assert (Forall (fun kv : value * value => hashable (fst kv) = true) [])
    as Hnil by constructor.
  pose proof (build_fold_hashable _ _ _ _ _ H1 Hnil) as Ht1.
  apply build_step in H2 as (k' & v' & Hk' & Hv' & Hh & ->).
  rewrite Hk in Hk'. injection Hk' as <-. rewrite Hv in Hv'. injection Hv' as <-.
  unfold table_get. rewrite Hh.
  rewrite (build_fold_keeps idk valk k v post Hh Hpost _ _ H); [done| |].
  - by apply tinsert_hashable.
  - by apply tfind_tinsert_eq.
Qed.

Lemma build_table_last_wins_witness :
  table_get [(VInt 10, VStr "Jett"); (VInt 11, VStr "Sage")] (VInt 10)
    = Ok (VStr "Jett").
Proof.
  apply (build_table_last_wins "id" "name"
           [VDict [("id", VInt 10); ("name", VStr "Old")];
            VDict [("id", VInt 11); ("name", VStr "Sage")]]
           []
           (VDict [("id", VInt 10); ("name", VStr "Jett")])).
  - reflexivity.
  - reflexivity.
  - reflexivity.
  - constructor.
Defined.

Lemma tfind_tinsert_keeps (k k' v : value) (t : table) :
  is_Some (tfind k t) -> is_Some (tfind k (tinsert k' v t)).
Proof.
  induction t as [|[k2 v2] t IH]; simpl; [by intros [? ?]|].
  destruct (py_eq k2 k') eqn:E'; simpl; destruct (py_eq k2 k) eqn:E; eauto.
Qed.

(** A table filled by insertions of the keys of the entries of a list finds
    the key of every entry, and has at most as many items as the list. *)
Lemma fold_tinsert_found (key : value -> result value)
    (f : table -> value -> result table) :
  (forall t e t', f t e = Ok t' ->
     exists k v, key e = Ok k /\ hashable k = true /\ t' = tinsert k v t) ->
  forall (entries : list value) (t : table),
    foldM f entries [] = Ok t ->
    length t <= length entries /\
    forall e, In e entries -> exists k v, key e = Ok k /\ table_get t k = Ok v.
Proof.
  intros Hf entries. induction entries as [|e entries IH] using rev_ind;
    intros t H.
  - simpl in H. injection H as <-. split; [done|]. intros e [].
  - rewrite foldM_app in H. apply bind_Ok in H as (t1 & H1 & H).
    cbn [foldM] in H. apply bind_Ok in H as (t2 & H2 & H). injection H as <-.
    apply Hf in H2 as (k & v & Hk & Hh & ->).
    destruct (IH _ H1) as [Hlen Hall]. split.
    + rewrite length_app. simpl. pose proof (tinsert_length k v t1). lia.
    + intros e' Hin. apply in_app_or in Hin as [Hin|[<-|[]]].
      * destruct (Hall _ Hin) as (k' & v' & Hk' & Hget).
        unfold table_get in Hget. destruct (hashable k') eqn:Hh'; [|discriminate].
        apply of_option_Ok in Hget.
        destruct (tfind_tinsert_keeps k' k v t1) as [w Hw]; [by eexists|].
        exists k', w. split; [done|]. unfold table_get. by rewrite Hh', Hw.
      * exists k, v. split; [done|]. unfold table_get.
        by rewrite Hh, tfind_tinsert_eq.
Qed.

(** X2: a table built from a section of [content] (weapons, agents,
    regions) finds the id of every entry of the section, so a lookup of a
    listed id never misses, and it has at most as many items as the section
    has entries. *)
Theorem content_table_finds (fm : value) (section : string) (t : table) :
  content_table fm section = Ok t ->
  exists content entries,
    vget "content" fm = Ok content /\
    vget section content = Ok (VList entries) /\
    length t <= length entries /\
    forall e, In e entries ->
      exists k v, vget "id" e = Ok k /\ table_get t k = Ok v.
Proof.
  unfold content_table. intros H.
  apply bind_Ok in H as (content & Hc & H).
  apply bind_Ok in H as (l & Hl & H).
  apply bind_Ok in H as (entries & He & H).
  destruct l; try discriminate. simpl in He. injection He as ->.
  exists content, entries. split; [done|]. split; [done|].
  unfold build_table in H.
  apply (fold_tinsert_found (vget "id")) in H; [done|].
  intros t0 e t' Hstep. apply build_step in Hstep as (k & v & ? & ? & ? & ?).
  eauto.
Qed.

Lemma content_table_finds_witness :
  exists content entries,
    vget "content" Examples.payload = Ok content /\
    vget "agents" content = Ok (VList entries) /\
    length Examples.agent_table <= length entries /\
    forall e, In e entries ->
      exists k v, vget "id" e = Ok k /\ table_get Examples.agent_table k = Ok v.
Proof.
  apply (content_table_finds Examples.payload "agents" Examples.agent_table).
  reflexivity.
Defined.

(** X3: the table of in-game names finds the id of every player of the
    located match, and has at most as many items as the match has players,
    so [numPlayers] is at least 1 and at most the number of players (or 1). *)
Theorem ign_dict_finds (fm mid : value) (t : table) :
  get_ign_dict fm mid = Ok t ->
  exists m players,
    located_match fm mid = Ok m /\
    vget "players" m = Ok (VList players) /\
    length t <= length players /\
    1 <= Nat.max (length t) 1 <= Nat.max (length players) 1 /\
    forall p, In p players ->
      exists pl k v, vget "player" p = Ok pl /\ vget "id" pl = Ok k /\
                     table_get t k = Ok v.
Proof.
  unfold get_ign_dict. intros H.
  apply bind_Ok in H as (ms & Hms & H).
  apply bind_Ok in H as (index & Hfind & H).
  apply bind_Ok in H as (m & Hm & H).
  apply bind_Ok in H as (ps & Hps & H).
  apply bind_Ok in H as (players & Hpl & H).
  destruct ps; try discriminate. simpl in Hpl. injection Hpl as ->.
  exists m, players. split.
  { unfold located_match. rewrite Hms. simpl. by rewrite Hfind. }
  split; [done|].
  apply (fold_tinsert_found
           (fun p => let* pl := vget "player" p in vget "id" pl)) in H.
  - destruct H as [Hlen Hall]. split; [done|]. split; [lia|].
    intros p Hp. destruct (Hall _ Hp) as (k & v & Hk & Hget).
    apply bind_Ok in Hk as (pl & Hpl & Hk). eauto 10.
  - intros t0 p t' Hstep.
    apply bind_Ok in Hstep as (pl & Hpl & Hstep).
    apply bind_Ok in Hstep as (ign & Hign & Hstep).
    apply bind_Ok in Hstep as (id & Hid & Hstep).
    apply table_set_Ok in Hstep as [Hh ->].
    exists id, ign. rewrite Hpl. simpl. by rewrite Hid.
Qed.

Lemma ign_dict_finds_witness :
  exists m players,
    located_match Examples.payload (VInt 7) = Ok m /\
    vget "players" m = Ok (VList players) /\
    length Examples.ign_table <= length players /\
    1 <= Nat.max (length Examples.ign_table) 1 <= Nat.max (length players) 1 /\
    forall p, In p players ->
      exists pl k v, vget "player" p = Ok pl /\ vget "id" pl = Ok k /\
                     table_get Examples.ign_table k = Ok v.
Proof.
  apply (ign_dict_finds Examples.payload (VInt 7) Examples.ign_table).
  reflexivity.
Defined.

End Tables.

(** ** The located match *)

Section Located.

Lemma find_match_spec (mid : value) (ms : list value) :
  forall (num : nat) (res : option nat),
    find_match mid ms num = Ok res ->
    match res with
    | Some n =>
        exists k m i,
          n = num + k /\ ms !! k = Some m /\ vget "id" m = Ok i /\
          py_eq i mid = true /\
          forall j m', j < k -> ms !! j = Some m' ->
            exists i', vget "id" m' = Ok i' /\ py_eq i' mid = false
    | None =>
        Forall (fun m => exists i, vget "id" m = Ok i /\ py_eq i mid = false) ms
    end.
Proof.
  induction ms as [|m ms IH]; intros num res H; simpl in H.
  - injection H as <-. constructor.
  - apply bind_Ok in H as (i & Hi & H). destruct (py_eq i mid) eqn:E.
    + injection H as <-. exists 0, m, i. rewrite Nat.add_0_r.
      repeat split; auto. intros j m' Hj. lia.
    + apply IH in H. destruct res as [n|].
      * destruct H as (k & m1 & i1 & -> & Hk & Hi1 & E1 & Hbefore).
        exists (S k), m1, i1.
        split; [lia|]. split; [done|]. split; [done|]. split; [done|].
        intros [|j] m' Hj Hm'; simpl in Hm'.
        -- injection Hm' as <-. eauto.
        -- apply (Hbefore j); [lia | done].
      * constructor; eauto.
Qed.

Lemma find_match_none (mid : value) (ms : list value) (num : nat) :
  Forall (fun m => exists i, vget "id" m = Ok i /\ py_eq i mid = false) ms ->
  find_match mid ms num = Ok None.
Proof.
  intros H. revert num. induction H as [|m ms (i & Hi & E) _ IH]; intros num;
    simpl; [done|].
  rewrite Hi. simpl. by rewrite E.
Qed.

(** X4: the located match is the first match of the series whose id equals
    the match id of the parser. *)
Theorem located_match_first (fm mid m : value) :
  located_match fm mid = Ok m ->
  exists ms n i,
    series_matches fm = Ok ms /\ ms !! n = Some m /\
    vget "id" m = Ok i /\ py_eq i mid = true /\
    forall j m', j < n -> ms !! j = Some m' ->
      exists i', vget "id" m' = Ok i' /\ py_eq i' mid = false.
Proof.
  unfold located_match. intros H.
  apply bind_Ok in H as (ms & Hms & H).
  apply bind_Ok in H as (index & Hfind & H).
  destruct index as [n|]; [|discriminate].
  unfold at_index, list_get in H. apply of_option_Ok in H.
  apply find_match_spec in Hfind as (k & m1 & i & Hn & Hk & Hi & E & Hbefore).
  simpl in Hn. subst n. rewrite H in Hk. injection Hk as <-.
  exists ms, k, i. by repeat split.
Qed.

Lemma located_match_first_witness :
  exists ms n i,
    series_matches Examples.payload = Ok ms /\
    ms !! n = Some (Examples.the_match [Examples.round 1; Examples.round 2]) /\
    vget "id" (Examples.the_match [Examples.round 1; Examples.round 2]) = Ok i /\
    py_eq i (VInt 7) = true /\
    forall j m', j < n -> ms !! j = Some m' ->
      exists i', vget "id" m' = Ok i' /\ py_eq i' (VInt 7) = false.
Proof.
  apply (located_match_first Examples.payload). reflexivity.
Defined.

(** X5: when no match of the series has the id of the parser (an empty
    list of matches included), the index stays [None] and subscripting the
    list of matches with it raises [TypeError]: [get_ign_dict] and
    [get_rounds] raise [TypeError]. *)
Theorem match_not_found (fm mid : value) (ms : list value) :
  series_matches fm = Ok ms ->
  Forall (fun m => exists i, vget "id" m = Ok i /\ py_eq i mid = false) ms ->
  located_match fm mid = Raise TypeError /\
  get_ign_dict fm mid = Raise TypeError /\
  get_rounds fm mid = Raise TypeError.
Proof.
  intros Hms Hall. pose proof (find_match_none mid ms 0 Hall) as Hfind.
  unfold located_match, get_ign_dict, get_rounds.
  rewrite Hms. simpl. rewrite Hfind. simpl. done.
Qed.

Lemma match_not_found_witness :
  located_match Examples.payload (VInt 8) = Raise TypeError /\
  get_ign_dict Examples.payload (VInt 8) = Raise TypeError /\
  get_rounds Examples.payload (VInt 8) = Raise TypeError.
Proof.
  apply (match_not_found Examples.payload (VInt 8)
           [Examples.the_match [Examples.round 1; Examples.round 2]]).
  - reflexivity.
  - constructor; [|constructor]. exists (VInt 7). split; reflexivity.
Defined.

End Located.

(** ** The request loop and the constructor *)

Section Requests.

Lemma request_loop_ok (get : nat -> attempt) (fuel count : nat) (r : response) :
  response_ok r = true -> request_loop get fuel count (Some r) = Some r.
Proof. intros H. destruct fuel; simpl; [done|]. by rewrite H. Qed.

Lemma falsy_response_test (resp : option response) :
  falsy_response resp ->
  match resp with Some r => response_ok r | None => false end = false.
Proof. by destruct resp. Qed.

Lemma request_loop_first_ok (get : nat -> attempt) (r : response) :
  response_ok r = true ->
  forall (fuel count j : nat) (resp : option response),
    falsy_response resp -> 1 <= j <= fuel ->
    (forall n, count < n < count + j -> not_ok (get n)) ->
    get (count + j) = Responded r ->
    request_loop get fuel count resp = Some r.
Proof.
  intros Hr. induction fuel as [|fuel IH]; intros count j resp Hresp Hj Hbefore Hget;
    [lia|].
  cbn [request_loop]. rewrite (falsy_response_test _ Hresp).
  destruct (decide (j = 1)) as [->|Hj1].
  - rewrite Nat.add_1_r in Hget. rewrite Hget. by apply request_loop_ok.
  - assert (not_ok (get (S count))) as Hno by (apply Hbefore; lia).
    assert (forall n, S count < n < S count + (j - 1) -> not_ok (get n)) as Hb'
      by (intros n Hn; apply Hbefore; lia).
    assert (get (S count + (j - 1)) = Responded r) as Hg'
      by (rewrite <- Hget; f_equal; lia).
    destruct (get (S count)) as [|r'] eqn:E.
    + apply (IH (S count) (j - 1)); auto; lia.
    + apply (IH (S count) (j - 1)); auto; lia.
Qed.

Lemma request_loop_timeouts (get : nat -> attempt) :
  forall fuel count,
    (forall n, count < n <= count + fuel -> get n = Timeout) ->
    request_loop get fuel count None = None.
Proof.
  induction fuel as [|fuel IH]; intros count H; simpl; [done|].
  rewrite (H (S count)) by lia. apply IH. intros n Hn. apply H. lia.
Qed.

Lemma request_loop_ext (get get' : nat -> attempt) :
  forall fuel count resp,
    (forall n, count < n <= count + fuel -> get n = get' n) ->
    request_loop get fuel count resp = request_loop get' fuel count resp.
Proof.
  induction fuel as [|fuel IH]; intros count resp H; simpl; [done|].
  rewrite <- (H (S count)) by lia.
  destruct (match resp with Some r => response_ok r | None => false end);
    [done|].
  destruct (get (S count)); apply IH; intros n Hn; apply H; lia.
Qed.

(** X6: when the eleven requests time out, no response is left and the
    constructor raises [AttributeError] on [response.status_code]: the match
    is not skipped. *)
Theorem init_all_timeouts (get : nat -> attempt) (hdr : bool) :
  (forall n, 1 <= n <= 11 -> get n = Timeout) ->
  init get hdr = Raise AttributeError.
Proof.
  intros H. unfold init. rewrite request_loop_timeouts; [done|].
  intros n Hn. apply H. lia.
Qed.

Lemma init_all_timeouts_witness :
  init (fun _ => Timeout) true = Raise AttributeError.
Proof. apply init_all_timeouts. intros n Hn. reflexivity. Defined.

(** X7: the loop keeps the first response without client or server error
    among the first eleven requests: when request [k] is the first to be
    answered so, its response is the one the constructor reads, whatever
    the earlier requests gave (timeouts or error responses). *)
Theorem request_loop_first_success (get : nat -> attempt) (k : nat)
    (r : response) :
  1 <= k <= 11 ->
  (forall n, 1 <= n < k -> not_ok (get n)) ->
  get k = Responded r -> response_ok r = true ->
  request_loop get 11 0 None = Some r.
Proof.
  intros Hk Hbefore Hget Hr.
  apply (request_loop_first_ok get r Hr 11 0 k None);
    [exact I | lia | | exact Hget].
  intros n Hn. apply Hbefore. lia.
Qed.

Lemma request_loop_first_success_witness :
  request_loop
    (fun n => if Nat.eqb n 11 then Responded (Examples.page Examples.payload)
              else if Nat.even n then Timeout
                   else Responded Examples.server_error)
    11 0 None = Some (Examples.page Examples.payload).
Proof.
  apply (request_loop_first_success _ 11).
  - lia.
  - intros n Hn.
    do 11 (destruct n as [|n]; [try lia; simpl; try reflexivity; exact I|]).
    lia.
  - reflexivity.
  - reflexivity.
Defined.

(** X8: the constructor makes at most eleven requests: what it does depends
    on the outcomes of the requests 1 to 11 only. *)
Theorem init_eleven_requests (get get' : nat -> attempt) (hdr : bool) :
  (forall n, 1 <= n <= 11 -> get n = get' n) ->
  init get hdr = init get' hdr.
Proof.
  intros H. unfold init.
  rewrite (request_loop_ext get get' 11 0 None); [done|].
  intros n Hn. apply H. lia.
Qed.

Lemma init_eleven_requests_witness :
  init (fun n => if Nat.leb n 11 then Timeout
                 else Responded (Examples.page Examples.payload)) false
  = init (fun _ => Timeout) false.
Proof.
  apply init_eleven_requests. intros n Hn.
  destruct (Nat.leb n 11) eqn:E; [done|]. apply Nat.leb_gt in E. lia.
Defined.

(** X9: a parser that the constructor has built holds as its form the
    [pageProps] of the page, a dict with the key [matchId], whose value is
    its match id; the form is therefore truthy, the test of [csv_rows] never
    raises on it, and the match is tossed exactly when
    [form.get('statusCode')] equals 500. *)
Theorem init_parser (get : nat -> attempt) (hdr : bool) (p : jsonParser) :
  init get hdr = Ok (Some p) ->
  exists r data props d,
    request_loop get 11 0 None = Some r /\
    status_code r <> 500%Z /\ next_data r = Some data /\
    vget "props" data = Ok props /\ vget "pageProps" props = Ok (form p) /\
    form p = VDict d /\ dget "matchId" d = Some (match_id p) /\
    addHeader p = hdr /\
    tossed (form p) = Ok (py_eq (default VNone (dget "statusCode" d)) (VInt 500)).
Proof.
  unfold init. intros H.
  destruct (request_loop get 11 0 None) as [r|]; [|discriminate].
  destruct (status_code r =? 500)%Z eqn:E; [discriminate|].
  apply Z.eqb_neq in E.
  destruct (next_data r) as [data|] eqn:Ed; [|discriminate].
  apply bind_Ok in H as (props & Hprops & H).
  apply bind_Ok in H as (fm & Hfm & H).
  apply bind_Ok in H as (mid & Hmid & H). injection H as <-. simpl.
  apply vget_is_dict in Hmid as (d & -> & Hd).
  exists r, data, props, d. repeat split; auto.
  unfold tossed. destruct d; [discriminate|]. reflexivity.
Qed.

Lemma init_parser_witness :
  exists r data props d,
    request_loop (Examples.web_const (Examples.page Examples.payload) "x")
      11 0 None = Some r /\
    status_code r <> 500%Z /\ next_data r = Some data /\
    vget "props" data = Ok props /\
    vget "pageProps" props = Ok (form (Examples.parser_of Examples.payload true)) /\
    form (Examples.parser_of Examples.payload true) = VDict d /\
    dget "matchId" d = Some (match_id (Examples.parser_of Examples.payload true)) /\
    addHeader (Examples.parser_of Examples.payload true) = true /\
    tossed (form (Examples.parser_of Examples.payload true)) =
      Ok (py_eq (default VNone (dget "statusCode" d)) (VInt 500)).
Proof.
  apply (init_parser (Examples.web_const (Examples.page Examples.payload) "x")).
  reflexivity.
Defined.

End Requests.

Section Tossed.

Variable web : string -> nat -> attempt.

(** X10: a match whose page is fetched and whose [pageProps] carry a
    [matchId] and a [statusCode] equal to 500 is skipped: [process_series]
    returns normally and appends no row for it; the flag [fileExists] is set
    all the same. *)
Theorem tossed_page_skipped (d : resultsDriver) (tail : string) (r : response)
    (data props fm mid sc : value) :
  request_loop (web ("https://www.rib.gg" ++ tail)%string) 11 0 None = Some r ->
  status_code r <> 500%Z -> next_data r = Some data ->
  vget "props" data = Ok props -> vget "pageProps" props = Ok fm ->
  vget "matchId" fm = Ok mid ->
  vget "statusCode" fm = Ok sc -> py_eq sc (VInt 500) = true ->
  process_series web d [tail] = Ok {| fileExists := true; file := file d |}.
Proof.
  intros Hr Hs Hd Hprops Hfm Hmid Hsc Epy.
  assert (forall hdr,
            init (web ("https://www.rib.gg" ++ tail)%string) hdr
            = Ok (Some {| form := fm; match_id := mid; addHeader := hdr |}))
    as Hinit.
  { intros hdr. unfold init. rewrite Hr. apply Z.eqb_neq in Hs.
    rewrite Hs, Hd, Hprops. simpl. rewrite Hfm. simpl. by rewrite Hmid. }
  assert (tossed fm = Ok true) as Ht.
  { apply vget_is_dict in Hsc as (dd & -> & Hdd).
    unfold tossed. destruct dd; [discriminate|].
    cbn [truthy negb status_code_of bind]. rewrite Hdd. simpl. by rewrite Epy. }
  unfold process_series. cbn [sort_links fold_right insert_link foldM].
  rewrite process_link_rows. unfold match_rows_of. rewrite Hinit.
  cbn [bind parser_rows]. unfold csv_rows. cbn [form]. rewrite Ht.
  simpl. by rewrite app_nil_r.
Qed.

End Tossed.

Lemma tossed_page_skipped_witness :
  process_series (Examples.web_const (Examples.page Examples.payload_tossed))
    Examples.old_file [Examples.link_a]
  = Ok {| fileExists := true; file := file Examples.old_file |}.
Proof.
  apply (tossed_page_skipped _ _ _ (Examples.page Examples.payload_tossed)
           (VDict [("props", VDict [("pageProps", Examples.payload_tossed)])])
           (VDict [("pageProps", Examples.payload_tossed)])
           Examples.payload_tossed (VInt 7) (VInt 500)); try reflexivity.
  discriminate.
Defined.

(** ** The round records and the header *)

Section RoundKeys.

Lemma dset_keys_new (k : string) (v : value) (d : dict) :
  dget k d = None -> map fst (dset k v d) = map fst d ++ [k].
Proof.
  induction d as [|[k' v'] d IH]; simpl; [done|].
  destruct (String.eqb k k'); [discriminate|]. intros H. simpl. by rewrite IH.
Qed.

Lemma dset_values_new (k : string) (v : value) (d : dict) :
  dget k d = None -> dvalues (dset k v d) = dvalues d ++ [v].
Proof.
  unfold dvalues. induction d as [|[k' v'] d IH]; simpl; [done|].
  destruct (String.eqb k k'); [discriminate|]. intros H. simpl. by rewrite IH.
Qed.

Lemma get_match_info_keys (fm mid : value) (md : dict) :
  get_match_info fm mid = Ok md -> map fst md = metadata_keys.
Proof. unfold get_match_info. intros H. inv_bind. by subst md. Qed.

(** X11: a round record keeps the keys of the round entry in their order
    and, when the entry has neither, gains [team1Players] and
    [team2Players] as its last two keys, with the values of the two lists of
    the round. *)
Theorem round_record_keys (fm mid : value) (rs : list dict) (fm' m : value)
    (rounds : list value) (k : nat) (r round : dict) :
  get_rounds fm mid = Ok (rs, fm') ->
  located_match fm mid = Ok m ->
  vget "rounds" m = Ok (VList rounds) ->
  rs !! k = Some r -> rounds !! k = Some (VDict round) ->
  dget "team1Players" round = None -> dget "team2Players" round = None ->
  map fst r = map fst round ++ ["team1Players"; "team2Players"] /\
  exists v1 v2,
    dget "team1Players" r = Some v1 /\ dget "team2Players" r = Some v2 /\
    dvalues r = dvalues round ++ [v1; v2].
Proof.
  intros H Hm Hr Hk Hround H1 H2.
  apply get_rounds_inv in H
    as (ms & n & m0 & rounds0 & t1 & t2 & fm1 & series & Hms & Hfind & Hn
        & Hr0 & _ & Hatt & _ & _).
  assert (m0 = m) as ->.
  { unfold located_match in Hm. rewrite Hms in Hm. simpl in Hm.
    rewrite Hfind in Hm. simpl in Hm. unfold list_get in Hm.
    rewrite Hn in Hm. by injection Hm. }
  rewrite Hr in Hr0. injection Hr0 as <-.
  apply attach_all_spec in Hatt as [_ Hatt].
  destruct (Hatt _ _ Hk) as (round' & a & b & Hround' & _ & _ & ->).
  rewrite Hround in Hround'. injection Hround' as <-.
  assert (dget "team2Players"
            (dset "team1Players" (players_or_none a) round) = None) as H2'
    by (by rewrite dget_dset_ne).
  split.
  - rewrite dset_keys_new by done. rewrite dset_keys_new by done.
    by rewrite <- app_assoc.
  - exists (players_or_none a), (players_or_none b).
    split; [rewrite dget_dset_ne by discriminate; apply dget_dset_eq|].
    split; [apply dget_dset_eq|].
    rewrite dset_values_new by done. rewrite dset_values_new by done.
    by rewrite <- app_assoc.
Qed.

Lemma round_record_keys_witness :
  map fst (Examples.round_record 0)
    = map fst [("number", VInt 1)] ++ ["team1Players"; "team2Players"] /\
  exists v1 v2,
    dget "team1Players" (Examples.round_record 0) = Some v1 /\
    dget "team2Players" (Examples.round_record 0) = Some v2 /\
    dvalues (Examples.round_record 0) = dvalues [("number", VInt 1)] ++ [v1; v2].
Proof.
  apply (round_record_keys Examples.payload (VInt 7)
           (fst Examples.payload_rounds) (snd Examples.payload_rounds)
           (Examples.the_match [Examples.round 1; Examples.round 2])
           [Examples.round 1; Examples.round 2] 0);
    vm_compute; reflexivity.
Defined.

(** X12: when the header flag is set and the match has rounds, the first
    row [csv_rows] returns is the header: the twenty metadata names in
    their fixed order, then the keys of the first round entry, then
    [team1Players] and [team2Players]; it is followed by one row for each
    round. *)
Theorem csv_rows_header (p : jsonParser) (rows : list row) (fm' m : value)
    (round0 : dict) (more : list value) :
  csv_rows p = Ok (rows, fm') ->
  addHeader p = true ->
  tossed (form p) = Ok false ->
  located_match (form p) (match_id p) = Ok m ->
  vget "rounds" m = Ok (VList (VDict round0 :: more)) ->
  dget "team1Players" round0 = None -> dget "team2Players" round0 = None ->
  exists data,
    rows = (map VStr metadata_keys ++ dkeys round0
              ++ [VStr "team1Players"; VStr "team2Players"]) :: data /\
    length data = S (length more).
Proof.
  intros H Hh Ht Hm Hr H1 H2. unfold csv_rows in H. rewrite Ht in H.
  cbn [bind] in H. apply bind_Ok in H as (md & Hmd & H).
  apply bind_Ok in H as ([rounds fm1] & Hgr & H).
  apply bind_Ok in H as (rows' & Hrows & H). injection H as <- <-.
  pose proof (get_match_info_keys _ _ _ Hmd) as Hkeys.
  pose proof Hgr as Hgr'.
  apply get_rounds_inv in Hgr'
    as (ms & n & m0 & rounds0 & t1 & t2 & fm2 & series & Hms & Hfind & Hn
        & Hr0 & _ & Hatt & _ & _).
  assert (m0 = m) as ->.
  { unfold located_match in Hm. rewrite Hms in Hm. simpl in Hm.
    rewrite Hfind in Hm. simpl in Hm. unfold list_get in Hm.
    rewrite Hn in Hm. by injection Hm. }
  rewrite Hr in Hr0. injection Hr0 as <-.
  apply attach_all_spec in Hatt as [Hlen Hatt].
  destruct rounds as [|r0 rest]; [discriminate|].
  destruct (Hatt 0 r0 eq_refl) as (round' & a & b & Hround' & _ & _ & Hr0).
  injection Hround' as <-.
  unfold match_rows in Hrows. rewrite Hh in Hrows.
  cbn [header_row list_get lookup list_lookup of_option bind] in Hrows.
  injection Hrows as <-. eexists. split.
  - cbn [app]. f_equal. unfold dkeys. rewrite <- (map_map fst VStr md), Hkeys.
    f_equal. rewrite Hr0. rewrite <- (map_map fst VStr).
    rewrite dset_keys_new; [|by rewrite dget_dset_ne].
    rewrite dset_keys_new by done. rewrite <- app_assoc, map_app.
    by rewrite map_map.
  - simpl. rewrite length_map. simpl in Hlen. lia.
Qed.

Lemma csv_rows_header_witness :
  exists data,
    fst Examples.payload_csv
      = (map VStr metadata_keys ++ dkeys [("number", VInt 1)]
           ++ [VStr "team1Players"; VStr "team2Players"]) :: data /\
    length data = S (length [Examples.round 2]).
Proof.
  apply (csv_rows_header (Examples.parser_of Examples.payload true) _
           (snd Examples.payload_csv)
           (Examples.the_match [Examples.round 1; Examples.round 2]));
    vm_compute; reflexivity.
Defined.

End RoundKeys.

(** ** The windows of player_stats_data *)

Section Windows.

Lemma join_round_appends (ign ag wp : table) (stats : list dict) (n : nat)
    (st st' : stats_state) (i : nat) :
  join_round ign ag wp stats n st i = Ok st' ->
  length (ss_team1 st') = S (length (ss_team1 st)) /\
  length (ss_team2 st') = S (length (ss_team2 st)).
Proof.
  unfold join_round. intros H. apply bind_Ok in H as (r & _ & H).
  injection H as <-. simpl. rewrite !length_app. simpl. lia.
Qed.

Lemma rounds_fold_lengths (ign ag wp : table) (stats : list dict) (n : nat)
    (starts : list nat) :
  forall st st',
    foldM (join_round ign ag wp stats n) starts st = Ok st' ->
    length (ss_team1 st') = length (ss_team1 st) + length starts /\
    length (ss_team2 st') = length (ss_team2 st) + length starts.
Proof.
  induction starts as [|i starts IH]; intros st st' H; cbn [foldM] in H.
  - injection H as <-. simpl. lia.
  - apply bind_Ok in H as (st1 & H1 & H).
    apply join_round_appends in H1 as [H11 H12].
    apply IH in H as [H21 H22]. simpl. lia.
Qed.

Lemma range_step_length (len n : nat) :
  length (range_step len n) = (len + n - 1) / n.
Proof. unfold range_step. by rewrite length_map, length_seq. Qed.

Lemma player_stats_data_lengths (fm mid : value) (t1 t2 : list (list dict))
    (fm1 : value) :
  player_stats_data fm mid = Ok (t1, t2, fm1) ->
  exists stats ign,
    match_stats fm mid = Ok stats /\ get_ign_dict fm mid = Ok ign /\
    length t1 = (length stats + Nat.max (length ign) 1 - 1)
                  / Nat.max (length ign) 1 /\
    length t2 = length t1.
Proof.
  intros H. apply player_stats_data_inv in H
    as (ign & ag & wp & stats & details & economy & Hign & _ & _ & Hstats
        & _ & _
        & [(Hr & -> & -> & _)|(store & st & _ & Hfold & -> & -> & _)]).
  - exists stats, ign. rewrite <- range_step_length, Hr. by repeat split.
  - exists stats, ign. apply rounds_fold_lengths in Hfold as [H1 H2].
    simpl in *. rewrite H1, H2, range_step_length. by repeat split.
Qed.

(** X13: [player_stats_data] returns one list per window for each team:
    as many as the stat records of the match divided by [numPlayers],
    rounded up; a last window that is not full counts. *)
Theorem window_count (fm mid : value) (t1 t2 : list (list dict)) (fm1 : value) :
  player_stats_data fm mid = Ok (t1, t2, fm1) ->
  exists stats ign,
    match_stats fm mid = Ok stats /\ get_ign_dict fm mid = Ok ign /\
    length t1 = (length stats + Nat.max (length ign) 1 - 1)
                  / Nat.max (length ign) 1 /\
    length t2 = length t1.
Proof. apply player_stats_data_lengths. Qed.

Lemma window_count_witness :
  exists stats ign,
    match_stats Examples.payload (VInt 7) = Ok stats /\
    get_ign_dict Examples.payload (VInt 7) = Ok ign /\
    length (fst (fst Examples.payload_stats))
      = (length stats + Nat.max (length ign) 1 - 1) / Nat.max (length ign) 1 /\
    length (snd (fst Examples.payload_stats))
      = length (fst (fst Examples.payload_stats)).
Proof.
  apply (window_count Examples.payload (VInt 7) _ _ (snd Examples.payload_stats)).
  vm_compute. reflexivity.
Defined.

(** X14: when the match has no stat record, [player_stats_data] returns two
    empty lists and leaves the form as it is; the economies are not looked
    into, whatever they are. *)
Theorem no_stats_no_windows (fm mid : value) (t1 t2 : list (list dict))
    (fm1 : value) :
  match_stats fm mid = Ok [] ->
  player_stats_data fm mid = Ok (t1, t2, fm1) ->
  t1 = [] /\ t2 = [] /\ fm1 = fm.
Proof.
  intros Hs H. unfold player_stats_data in H. rewrite Hs in H.
  cbn [bind] in H.
  apply bind_Ok in H as (details & _ & H).
  apply bind_Ok in H as (economy & _ & H).
  apply bind_Ok in H as (ign & _ & H).
  apply bind_Ok in H as (ag & _ & H).
  apply bind_Ok in H as (wp & _ & H).
  assert (range_step (length (@nil dict)) (Nat.max (length ign) 1) = []) as Hr.
  { unfold range_step. simpl.
    replace ((Nat.max (length ign) 1 - 1) / Nat.max (length ign) 1) with 0;
      [done|].
    symmetry. apply Nat.div_small. lia. }
  rewrite Hr in H. by injection H as <- <- <-.
Qed.

Lemma no_stats_no_windows_witness :
  @nil (list dict) = [] /\ @nil (list dict) = [] /\
  Examples.payload_no_rounds = Examples.payload_no_rounds.
Proof.
  apply (no_stats_no_windows Examples.payload_no_rounds (VInt 7));
    vm_compute; reflexivity.
Defined.

Lemma attach_all_short (t1 t2 : list (list dict)) (rounds : list value) :
  length t2 = length t1 ->
  Forall (fun r => exists d, r = VDict d) rounds ->
  forall num,
    num <= length t1 -> length t1 < num + length rounds ->
    attach_all t1 t2 num rounds = Raise IndexError.
Proof.
  intros Hlen Hall. induction Hall as [|round rounds [d ->] _ IH];
    intros num Hnum Hshort; simpl in *; [lia|].
  unfold attach_players, list_get.
  destruct (t1 !! num) as [a|] eqn:E1.
  - pose proof (lookup_lt_Some _ _ _ E1) as Hlt.
    destruct (lookup_lt_is_Some_2 t2 num) as [b E2]; [lia|].
    simpl. rewrite E2. simpl. rewrite IH by lia. done.
  - done.
Qed.

(** X15: when the located match has more rounds than [player_stats_data]
    returned windows (a match with rounds and no stat records, for
    instance), [get_rounds] raises [IndexError] on [playerData[0][num]]. *)
Theorem rounds_outnumber_windows (fm mid m : value) (rounds : list value)
    (t1 t2 : list (list dict)) (fm1 : value) :
  located_match fm mid = Ok m ->
  vget "rounds" m = Ok (VList rounds) ->
  Forall (fun r => exists d, r = VDict d) rounds ->
  player_stats_data fm mid = Ok (t1, t2, fm1) ->
  length t1 < length rounds ->
  get_rounds fm mid = Raise IndexError.
Proof.
  intros Hm Hr Hall Hps Hlt.
  apply located_match_inv in Hm as (ms & n & Hms & Hfind & Hn).
  destruct (player_stats_data_lengths _ _ _ _ _ Hps)
    as (stats & ign & _ & _ & _ & Hlen).
  unfold get_rounds. rewrite Hms. simpl. rewrite Hfind. simpl.
  unfold list_get. rewrite Hn. simpl. rewrite Hr. simpl. rewrite Hps. simpl.
  rewrite (attach_all_short t1 t2 rounds Hlen Hall 0); [done | lia | lia].
Qed.

Lemma rounds_outnumber_windows_witness :
  get_rounds (Examples.mk_payload [Examples.round 1] [] [] Examples.agents)
    (VInt 7) = Raise IndexError.
Proof.
  apply (rounds_outnumber_windows _ _ (Examples.the_match [Examples.round 1])
           [Examples.round 1] [] []
           (Examples.mk_payload [Examples.round 1] [] [] Examples.agents)).
  - reflexivity.
  - reflexivity.
  - repeat constructor. by eexists.
  - reflexivity.
  - simpl. lia.
Defined.

Lemma join_one_count (ign ag wp : table) (stats : list dict)
    (st st' : round_state) (j : nat) :
  join_one ign ag wp stats st j = Ok st' ->
  length (rs_team1 st') + length (rs_team2 st') + length (rs_window st')
    = length (rs_team1 st) + length (rs_team2 st) + length (rs_window st).
Proof.
  unfold join_one. intros H. apply bind_Ok in H as (hit & _ & H).
  destruct hit as [player|]; [|by injection H as <-].
  apply bind_Ok in H as (k & _ & H).
  apply bind_Ok in H as (ref & Href & H). apply of_option_Ok in Href.
  apply bind_Ok in H as (e & _ & H).
  apply bind_Ok in H as (pe & _ & H).
  apply bind_Ok in H as (sd & _ & H).
  apply bind_Ok in H as (r & _ & H).
  apply bind_Ok in H as (t & _ & H). injection H as <-. simpl.
  pose proof (lookup_lt_Some _ _ _ Href) as Hlt.
  rewrite length_delete by eauto.
  destruct t; rewrite length_app; simpl; lia.
Qed.

Lemma join_round_bound (ign ag wp : table) (stats : list dict) (n : nat)
    (st st' : stats_state) (i : nat) :
  join_round ign ag wp stats n st i = Ok st' ->
  Forall2 (fun a b => length a + length b <= n) (ss_team1 st) (ss_team2 st) ->
  Forall2 (fun a b => length a + length b <= n) (ss_team1 st') (ss_team2 st').
Proof.
  unfold join_round. intros H Hst. apply bind_Ok in H as (r & Hfold & H).
  injection H as <-. simpl. apply Forall2_app; [done|].
  constructor; [|constructor].
  assert (length (rs_team1 r) + length (rs_team2 r) + length (rs_window r)
          = length (slice_refs (length (ss_store st)) i n)) as Hc.
  { revert Hfold.
    apply (foldM_inv
             (fun s => length (rs_team1 s) + length (rs_team2 s)
                       + length (rs_window s)
                       = length (slice_refs (length (ss_store st)) i n)));
      [|done].
    intros s j s' Hs Hj. by rewrite (join_one_count _ _ _ _ _ _ _ Hj). }
  unfold slice_refs in Hc. rewrite length_seq in Hc. lia.
Qed.

(** X16: in every round the two lists hold together at most [numPlayers]
    records, one for each economy record consumed in the window. *)
Theorem round_size_bound (fm mid : value) (t1 t2 : list (list dict))
    (fm1 : value) :
  player_stats_data fm mid = Ok (t1, t2, fm1) ->
  exists ign,
    get_ign_dict fm mid = Ok ign /\
    Forall2 (fun a b => length a + length b <= Nat.max (length ign) 1) t1 t2.
Proof.
  intros H. apply player_stats_data_inv in H
    as (ign & ag & wp & stats & details & economy & Hign & _ & _ & _ & _ & _
        & [(_ & -> & -> & _)|(store & st & _ & Hfold & -> & -> & _)]).
  - exists ign. split; [done|]. constructor.
  - exists ign. split; [done|]. revert Hfold.
    apply (foldM_inv
             (fun s => Forall2
                         (fun a b => length a + length b
                                     <= Nat.max (length ign) 1)
                         (ss_team1 s) (ss_team2 s))).
    + intros s i s' Hs Hi. eapply join_round_bound; eauto.
    + constructor.
Qed.

Lemma round_size_bound_witness :
  exists ign,
    get_ign_dict Examples.payload (VInt 7) = Ok ign /\
    Forall2 (fun a b => length a + length b <= Nat.max (length ign) 1)
      (fst (fst Examples.payload_stats)) (snd (fst Examples.payload_stats)).
Proof.
  apply (round_size_bound Examples.payload (VInt 7) _ _
           (snd Examples.payload_stats)).
  vm_compute. reflexivity.
Defined.

End Windows.

(** ** Failures of the resolution *)

Section ResolveErrors.

Variables ignDict agentDict weaponDict : table.

(** X17: a matched pair in which neither record has a [weaponId] is not
    resolved without weapon name: reading [weaponId] raises [KeyError]. *)
Theorem resolve_weapon_id_absent (sd playerEcon : dict) (pid aid name ag : value) :
  nodup_keys sd = true ->
  merged_get sd playerEcon "playerId" = Some pid ->
  table_get ignDict pid = Ok name ->
  merged_get sd playerEcon "agentId" = Some aid ->
  table_get agentDict aid = Ok ag ->
  merged_get sd playerEcon "weaponId" = None ->
  resolve ignDict agentDict weaponDict sd playerEcon = Raise KeyError.
Proof.
  intros Hsd Hpid Hname Haid Hag Hwid. unfold resolve, dget'.
  rewrite dget_dupdate, Hpid by done. simpl. rewrite Hname. simpl.
  rewrite dget_dset_ne, dget_dupdate, Haid by (done || discriminate). simpl.
  rewrite Hag. simpl.
  rewrite !dget_dset_ne, dget_dupdate, Hwid by (done || discriminate).
  reflexivity.
Qed.

(** X18: a matched pair whose player id is not in the table of in-game
    names is not resolved: the lookup raises [KeyError] ([TypeError] when
    the id is a list or a dict). *)
Theorem resolve_player_miss (sd playerEcon : dict) (pid : value) :
  nodup_keys sd = true ->
  merged_get sd playerEcon "playerId" = Some pid ->
  tfind pid ignDict = None ->
  resolve ignDict agentDict weaponDict sd playerEcon
    = Raise (if hashable pid then KeyError else TypeError).
Proof.
  intros Hsd Hpid Hfind. unfold resolve, dget'.
  rewrite dget_dupdate, Hpid by done. simpl. unfold table_get.
  rewrite Hfind. by destruct (hashable pid).
Qed.

End ResolveErrors.

Lemma resolve_weapon_id_absent_witness :
  resolve Examples.ign_table Examples.agent_table []
    [("playerId", VInt 1); ("roundNumber", VInt 1); ("agentId", VInt 10);
     ("teamNumber", VInt 1)]
    Examples.econ1 = Raise KeyError.
Proof.
  apply (resolve_weapon_id_absent _ _ _ _ _ (VInt 1) (VInt 10)
           (VStr "Alice") (VStr "Jett")); reflexivity.
Defined.

Lemma resolve_player_miss_witness :
  resolve [] Examples.agent_table [] Examples.stat1 Examples.econ1
    = Raise (if hashable (VInt 1) then KeyError else TypeError).
Proof.
  apply (resolve_player_miss [] Examples.agent_table []
           Examples.stat1 Examples.econ1 (VInt 1)); reflexivity.
Defined.

(** ** A last window that is not full *)

Section PartialWindow.

Variables ignDict agentDict weaponDict : table.
Variable playerStats : list dict.

Lemma join_one_window (st st' : round_state) (j : nat) :
  join_one ignDict agentDict weaponDict playerStats st j = Ok st' ->
  length (rs_window st) <= S (length (rs_window st')).
Proof.
  unfold join_one. intros H. apply bind_Ok in H as (hit & _ & H).
  destruct hit as [player|]; [|injection H as <-; lia].
  apply bind_Ok in H as (k & _ & H).
  apply bind_Ok in H as (ref & Href & H). apply of_option_Ok in Href.
  apply bind_Ok in H as (e & _ & H).
  apply bind_Ok in H as (pe & _ & H).
  apply bind_Ok in H as (sd & _ & H).
  apply bind_Ok in H as (r & _ & H).
  apply bind_Ok in H as (t & _ & H). injection H as <-. simpl.
  rewrite length_delete by eauto. lia.
Qed.

Lemma join_fold_window (js : list nat) :
  forall st st',
    foldM (join_one ignDict agentDict weaponDict playerStats) js st = Ok st' ->
    length (rs_window st) <= length (rs_window st') + length js.
Proof.
  induction js as [|j js IH]; intros st st' H; cbn [foldM] in H.
  - injection H as <-. simpl. lia.
  - apply bind_Ok in H as (s1 & H1 & H).
    apply join_one_window in H1. apply IH in H. simpl. lia.
Qed.

Lemma join_one_past_end (st : round_state) (j : nat) :
  length playerStats <= j -> rs_window st <> [] ->
  join_one ignDict agentDict weaponDict playerStats st j = Raise IndexError.
Proof.
  intros Hj Hw. unfold join_one.
  destruct (rs_window st) as [|a w]; [done|].
  unfold list_get at 1. rewrite (lookup_ge_None_2 playerStats j Hj). reflexivity.
Qed.

Lemma join_round_partial (n : nat) (st : stats_state) (i : nat) :
  i <= length playerStats -> length playerStats < i + n ->
  length playerStats < length (ss_store st) ->
  forall st', join_round ignDict agentDict weaponDict playerStats n st i <> Ok st'.
Proof.
  intros Hi Hn Hstore st' H. unfold join_round in H.
  apply bind_Ok in H as (r & Hfold & _).
  set (b := length playerStats - i) in *.
  replace n with (b + S (n - b - 1)) in Hfold at 1 by lia.
  rewrite seq_app, foldM_app in Hfold.
  apply bind_Ok in Hfold as (s1 & H1 & H2).
  cbn [seq foldM] in H2. apply bind_Ok in H2 as (s2 & H2 & _).
  apply join_fold_window in H1. simpl in H1.
  unfold slice_refs in H1. rewrite !length_seq in H1.
  rewrite join_one_past_end in H2; [discriminate | lia |].
  intros Hnil. rewrite Hnil in H1. simpl in H1. lia.
Qed.

End PartialWindow.

Lemma range_step_snoc (len n : nat) :
  0 < n -> len mod n <> 0 ->
  range_step len n = range_step (len / n * n) n ++ [len / n * n].
Proof.
  intros Hn Hmod. unfold range_step.
  pose proof (Nat.div_mod_eq len n) as Hdm.
  pose proof (Nat.mod_upper_bound len n ltac:(lia)) as Hub.
  assert ((len + n - 1) / n = S (len / n)) as ->.
  { symmetry. apply (Nat.div_unique _ _ _ (len mod n - 1)); [lia|]. nia. }
  assert ((len / n * n + n - 1) / n = len / n) as ->.
  { symmetry. apply (Nat.div_unique _ _ _ (n - 1)); [lia|]. nia. }
  by rewrite seq_S, map_app.
Qed.

(** X19: when the number of stat records of the match is not a multiple of
    [numPlayers] and the economies hold more records than the match has stat
    records, [player_stats_data] does not return: the last window still
    holds an economy record when [j] passes the end of [playerStats], and
    [playerStats[j]] raises [IndexError], unless an earlier step has raised
    already. *)
Theorem partial_window_raises (fm mid : value) (stats : list dict) (ign : table)
    (details : value) (econs : list value) :
  match_stats fm mid = Ok stats ->
  get_ign_dict fm mid = Ok ign ->
  vget "matchDetails" fm = Ok details ->
  vget "economies" details = Ok (VList econs) ->
  length stats mod Nat.max (length ign) 1 <> 0 ->
  length stats < length econs ->
  exists e, player_stats_data fm mid = Raise e.
Proof.
  intros Hstats Hign Hdet Hecon Hmod Hlen.
  destruct (player_stats_data fm mid) as [[[t1 t2] fm1]|e] eqn:H; [|by eexists].
  exfalso. apply player_stats_data_inv in H
    as (ign' & ag & wp & stats' & details' & economy & Hign' & _ & _ & Hstats'
        & Hdet' & Hecon'
        & [(Hr & _)|(store & st & -> & Hfold & _)]);
    rewrite Hign in Hign'; rewrite Hstats in Hstats'; rewrite Hdet in Hdet';
    simplify_eq.
  - rewrite range_step_snoc in Hr by (done || lia).
    by apply app_eq_nil in Hr as [_ ?].
  - rewrite Hecon in Hecon'. injection Hecon' as <-.
    set (n := Nat.max (length ign') 1) in *.
    assert (0 < n) as Hn by (unfold n; lia).
    rewrite range_step_snoc, foldM_app in Hfold by done.
    apply bind_Ok in Hfold as (st1 & Hpre & Hlast).
    cbn [foldM] in Hlast. apply bind_Ok in Hlast as (st2 & Hlast & _).
    assert (length (ss_store st1) = length econs) as Hst1.
    { revert Hpre.
      apply (foldM_inv (fun s => length (ss_store s) = length econs)); [|done].
      intros s i s' Hs Hi.
      by rewrite (join_round_store_length _ _ _ _ _ _ _ _ Hi). }
    pose proof (Nat.div_mod_eq (length stats') n) as Hdm.
    pose proof (Nat.mod_upper_bound (length stats') n ltac:(lia)) as Hub.
    revert Hlast. apply join_round_partial; [nia | nia | lia].
Qed.

Lemma partial_window_raises_witness :
  exists e,
    player_stats_data
      (Examples.mk_payload [Examples.round 1] [Examples.stat 1 1 1]
         [Examples.econ 1 1; Examples.econ 2 1] Examples.agents)
      (VInt 7) = Raise e.
Proof.
  apply (partial_window_raises _ _
           [[("matchId", VInt 7); ("playerId", VInt 1); ("roundNumber", VInt 1);
             ("agentId", VInt 10); ("weaponId", VInt 0); ("teamNumber", VInt 1);
             ("kills", VInt 2)]]
           Examples.ign_table
           (VDict [("economies",
                    VList [Examples.econ 1 1; Examples.econ 2 1])])
           [Examples.econ 1 1; Examples.econ 2 1]).
  - vm_compute. reflexivity.
  - vm_compute. reflexivity.
  - reflexivity.
  - reflexivity.
  - vm_compute. discriminate.
  - simpl. lia.
Defined.

(** ** The sort key and the stability of the sort *)

Section SortKey.

Lemma no_eq_cons (c : ascii) (t : string) :
  no_eq (String c t) -> c <> "="%char /\ no_eq t.
Proof.
  intros H. split.
  - intros ->. by apply (H 0).
  - intros i. apply (H (S i)).
Qed.

Lemma after_last_eq_none (t : string) : no_eq t -> after_last_eq t = None.
Proof.
  induction t as [|c t IH]; intros H; [done|].
  apply no_eq_cons in H as [Hc Ht]. simpl. rewrite (IH Ht).
  by apply Ascii.eqb_neq in Hc as ->.
Qed.

Lemma after_last_eq_app (p t : string) :
  no_eq t -> after_last_eq (p ++ String "=" t) = Some t.
Proof.
  intros Ht. induction p as [|c p IH]; simpl.
  - by rewrite (after_last_eq_none t Ht).
  - by rewrite IH.
Qed.

(** X20: the key by which the links are sorted is the text after the last
    ['=']: for a link [p=t] where [t] has no ['='] the key is [t], and a
    link without ['='] is its own key. *)
Theorem sort_key_after_last_eq (p t : string) :
  no_eq t ->
  sort_key (p ++ "=" ++ t) = t /\ sort_key t = t.
Proof.
  intros Ht. unfold sort_key. split.
  - change ("=" ++ t)%string with (String "=" t).
    by rewrite after_last_eq_app.
  - by rewrite after_last_eq_none.
Qed.

Lemma sort_key_after_last_eq_witness :
  sort_key ("/series/1?a=b&match" ++ "=" ++ "10") = "10" /\ sort_key "10" = "10".
Proof.
  apply (sort_key_after_last_eq "/series/1?a=b&match" "10").
  intros i. do 3 (destruct i as [|i]; [discriminate|]). discriminate.
Defined.

Lemma string_compare_refl (s : string) : String.compare s s = Eq.
Proof.
  induction s as [|c s IH]; simpl; [done|].
  by rewrite ascii_compare_N, N.compare_refl.
Qed.

Lemma string_leb_refl (s : string) : String.leb s s = true.
Proof. unfold String.leb. by rewrite string_compare_refl. Qed.

Lemma insert_link_filter (k x : string) (l : list string) :
  List.filter (fun y => String.eqb (sort_key y) k) (insert_link x l)
  = List.filter (fun y => String.eqb (sort_key y) k) (x :: l).
Proof.
  induction l as [|y l IH]; [done|].
  cbn [insert_link].
  destruct (String.leb (sort_key x) (sort_key y)) eqn:E; [done|].
  cbn [List.filter] in *. rewrite IH.
  destruct (String.eqb_spec (sort_key x) k) as [Ex|Ex];
    destruct (String.eqb_spec (sort_key y) k) as [Ey|Ey]; try done.
  rewrite Ex, <- Ey, string_leb_refl in E. discriminate.
Qed.

(** X21: the sort is stable: the links that have a given key are processed
    in the order in which they were extracted. *)
Theorem sort_links_stable (k : string) (l : list string) :
  List.filter (fun y => String.eqb (sort_key y) k) (sort_links l)
  = List.filter (fun y => String.eqb (sort_key y) k) l.
Proof.
  induction l as [|x l IH]; [done|].
  cbn [sort_links fold_right]. rewrite insert_link_filter.
  cbn [List.filter]. fold (sort_links l). by rewrite IH.
Qed.

End SortKey.

(** ** The flag and the rows of a run *)

Section Run.

Variable web : string -> nat -> attempt.

(** X22: after a run, the flag [fileExists] is set exactly when it was set
    before or the run has built a parser, that is when some series had a
    link, whether or not a row was written for it. *)
Theorem flag_after_run (d d' : resultsDriver) (series : list (list string)) :
  process_all web d series = Ok d' ->
  fileExists d' =
    fileExists d || existsb (fun l => negb (Nat.eqb (length l) 0)) series.
Proof.
  unfold process_all. revert d; induction series as [|l series IH]; intros d H;
    cbn [foldM] in H.
  - injection H as <-. simpl. by rewrite orb_false_r.
  - apply bind_Ok in H as (d1 & H1 & H).
    apply process_series_rows in H1 as (outs & Hall & _ & Hfe).
    apply IH in H. rewrite H, Hfe. cbn [existsb].
    rewrite <- (Forall2_length _ _ _ Hall).
    rewrite (Permutation_length (sort_links_perm l)).
    by rewrite orb_assoc.
Qed.

End Run.

Lemma flag_after_run_witness :
  fileExists {| fileExists := true; file := [] |} =
    fileExists Examples.new_file
    || existsb (fun l => negb (Nat.eqb (length l) 0)) [[]; [Examples.link_a]].
Proof.
  apply (flag_after_run
           (Examples.web_const (Examples.page Examples.payload_tossed))
           Examples.new_file).
  vm_compute. reflexivity.
Defined.

(** X23: [csv_rows] returns no row exactly when the form is tossed, and the
    form is then left as it is; otherwise it returns at least one row, and
    only for a match that is found among the matches of the series. *)
Theorem rows_only_for_located_match (p : jsonParser) (rows : list row)
    (fm' : value) :
  csv_rows p = Ok (rows, fm') ->
  (tossed (form p) = Ok true /\ rows = [] /\ fm' = form p) \/
  (tossed (form p) = Ok false /\ rows <> [] /\
   exists m, located_match (form p) (match_id p) = Ok m).
Proof.
  unfold csv_rows. intros H. apply bind_Ok in H as (t & Ht & H).
  destruct t.
  - left. by injection H as <- <-.
  - right. apply bind_Ok in H as (md & _ & H).
    apply bind_Ok in H as ([rounds fm1] & Hr & H).
    apply bind_Ok in H as (rows0 & Hrows & H). injection H as <- <-.
    split; [done|]. split.
    + unfold match_rows in Hrows. destruct rounds as [|r0 rest].
      * by injection Hrows as <-.
      * apply bind_Ok in Hrows as (out & _ & Hrows). injection Hrows as <-.
        intros Hnil. apply app_eq_nil in Hnil as [_ Hnil]. discriminate.
    + apply get_rounds_inv in Hr
        as (ms & n & m0 & rounds0 & t1 & t2 & fm2 & series & Hms & Hfind & Hn
            & _).
      exists m0. unfold located_match. rewrite Hms. simpl. rewrite Hfind. simpl.
      unfold at_index, list_get. by rewrite Hn.
Qed.

Lemma rows_only_for_located_match_witness :
  (tossed (form (Examples.parser_of Examples.payload true)) = Ok true /\
   fst Examples.payload_csv = [] /\
   snd Examples.payload_csv = form (Examples.parser_of Examples.payload true)) \/
  (tossed (form (Examples.parser_of Examples.payload true)) = Ok false /\
   fst Examples.payload_csv <> [] /\
   exists m,
     located_match (form (Examples.parser_of Examples.payload true))
       (match_id (Examples.parser_of Examples.payload true)) = Ok m).
Proof.
  apply (rows_only_for_located_match (Examples.parser_of Examples.payload true)).
  vm_compute. reflexivity.
Defined.

(** ** Requests without success *)

Section NoSuccess.

Lemma request_loop_only_timeouts (get : nat -> attempt) :
  forall fuel count resp,
    (forall n, count < n <= count + fuel -> get n = Timeout) ->
    request_loop get fuel count resp = resp.
Proof.
  induction fuel as [|fuel IH]; intros count resp H; simpl; [done|].
  destruct (match resp with Some r => response_ok r | None => false end);
    [done|].
  rewrite (H (S count)) by lia. apply IH. intros n Hn. apply H. lia.
Qed.

Lemma request_loop_last (get : nat -> attempt) (r : response) :
  forall (fuel count j : nat) (resp : option response),
    falsy_response resp -> 1 <= j <= fuel ->
    (forall n, count < n < count + j -> not_ok (get n)) ->
    get (count + j) = Responded r ->
    (forall n, count + j < n <= count + fuel -> get n = Timeout) ->
    request_loop get fuel count resp = Some r.
Proof.
  induction fuel as [|fuel IH]; intros count j resp Hresp Hj Hbefore Hget Hafter;
    [lia|].
  cbn [request_loop]. rewrite (falsy_response_test _ Hresp).
  destruct (decide (j = 1)) as [->|Hj1].
  - rewrite Nat.add_1_r in Hget. rewrite Hget.
    apply request_loop_only_timeouts. intros n Hn. apply Hafter. lia.
  - assert (not_ok (get (S count))) as Hno by (apply Hbefore; lia).
    assert (forall n, S count < n < S count + (j - 1) -> not_ok (get n)) as Hb'
      by (intros n Hn; apply Hbefore; lia).
    assert (get (S count + (j - 1)) = Responded r) as Hg'
      by (rewrite <- Hget; f_equal; lia).
    assert (forall n, S count + (j - 1) < n <= S count + fuel -> get n = Timeout)
      as Ha' by (intros n Hn; apply Hafter; lia).
    destruct (get (S count)) as [|r'] eqn:E.
    + apply (IH (S count) (j - 1)); auto; lia.
    + apply (IH (S count) (j - 1)); auto; lia.
Qed.

(** X24: when none of the eleven requests is answered without client or
    server error, the constructor goes on with the last response received:
    a timeout does not clear the response of an earlier request. *)
Theorem request_loop_last_response (get : nat -> attempt) (k : nat)
    (r : response) :
  1 <= k <= 11 ->
  (forall n, 1 <= n <= 11 -> not_ok (get n)) ->
  get k = Responded r ->
  (forall n, k < n <= 11 -> get n = Timeout) ->
  request_loop get 11 0 None = Some r.
Proof.
  intros Hk Hall Hget Hafter.
  apply (request_loop_last get r 11 0 k None);
    [exact I | lia | | exact Hget | ].
  - intros n Hn. apply Hall. lia.
  - intros n Hn. apply Hafter. lia.
Qed.

End NoSuccess.

Lemma request_loop_last_response_witness :
  request_loop
    (fun n => if Nat.eqb n 2 then Responded Examples.server_error else Timeout)
    11 0 None = Some Examples.server_error.
Proof.
  apply (request_loop_last_response _ 2).
  - lia.
  - intros n Hn. destruct (Nat.eqb n 2); [reflexivity | exact I].
  - reflexivity.
  - intros n Hn. destruct (Nat.eqb_spec n 2); [lia | reflexivity].
Defined.

(** ** The constructor of the driver *)

Section DriverInit.

Lemma string_length_app (s t : string) :
  String.length (s ++ t) = String.length s + String.length t.
Proof. induction s as [|c s IH]; simpl; [done|]. by rewrite IH. Qed.

Lemma drop_string_app (s t : string) :
  drop_string (String.length s) (s ++ t) = t.
Proof. induction s as [|c s IH]; simpl; [by destruct t|]. exact IH. Qed.

Lemma tail4_app_csv (s : string) : tail4 (s ++ ".csv") = ".csv".
Proof.
  unfold tail4. rewrite string_length_app.
  replace (String.length s + String.length ".csv" - 4) with (String.length s)
    by (simpl; lia).
  apply drop_string_app.
Qed.

(** X25: the name of the file the driver writes to always ends in [.csv]:
    it is the given name exactly when that name ends in [.csv], and the
    given name followed by [.csv] otherwise; normalising it again changes
    nothing.  The flag [fileExists] is read for the name as given, not for
    the name written to. *)
Theorem driver_file_name (isfile : string -> bool) (fileName : string)
    (numSeries : value) :
  exists name,
    getattr (driver_init isfile fileName numSeries) "fileName" = Ok (VStr name) /\
    tail4 name = ".csv" /\
    (name = fileName <-> tail4 fileName = ".csv") /\
    (name <> fileName -> name = (fileName ++ ".csv")%string) /\
    csv_name name = name /\
    getattr (driver_init isfile fileName numSeries) "fileExists"
      = Ok (VBool (isfile fileName)).
Proof.
  exists (csv_name fileName). split; [reflexivity|].
  assert (tail4 (csv_name fileName) = ".csv") as Ht.
  { unfold csv_name.
    destruct (String.eqb_spec (tail4 fileName) ".csv") as [E|E];
      [exact E | apply tail4_app_csv]. }
  split; [exact Ht|]. split; [|split; [|split; [|reflexivity]]].
  - unfold csv_name.
    destruct (String.eqb_spec (tail4 fileName) ".csv") as [E|E]; [tauto|].
    split; [|tauto]. intros Heq. apply (f_equal String.length) in Heq.
    rewrite string_length_app in Heq. simpl in Heq. lia.
  - unfold csv_name.
    destruct (String.eqb_spec (tail4 fileName) ".csv") as [E|E]; [|done].
    intros Hne. by destruct Hne.
  - unfold csv_name at 1. by rewrite Ht, String.eqb_refl.
Qed.

(** X26: on a driver as its constructor leaves it, the test of the loop of
    [get_series] raises [AttributeError]: the constructor stores the number
    of series under [numMatches], and the loop reads [numSeries]. *)
Theorem get_series_loop_raises (isfile : string -> bool) (fileName : string)
    (numSeries : value) (countSeries : Z) :
  getattr (driver_init isfile fileName numSeries) "numMatches" = Ok numSeries /\
  series_loop_test (driver_init isfile fileName numSeries) countSeries
    = Raise AttributeError.
Proof. split; reflexivity. Qed.

End DriverInit.
